(** * A shallow embedding of [main.py]: wallets, signed transactions,
      proof-of-work blocks, the ledger and the pending pool.

    Python objects that the program mutates and shares (the [Wallet]s and
    the one [Blockchain]) live in an explicit store; a method that can raise
    returns an outcome together with the store as the exception leaves it.
    The functions of [cryptography], [hashlib] and [json] are taken as an
    interface ([Library]); what [time.time()], the signer and [random.choice]
    draw is an argument of the operation that uses it.  Amounts, fees and
    balances are binary64 floats, as the annotations of the source have them. *)

From Stdlib Require Import ZArith Ascii String List Floats Bool Lia.
From Stdlib Require HexString.
From stdpp Require Import gmap strings list.

Set Warnings "-inexact-float,-register-all".

Local Open Scope string_scope.
Local Open Scope list_scope.
Local Open Scope Z_scope.

(** ** Python values used by the program *)

Definition bytes := list Byte.byte.

(** [str.encode()] on the ASCII text that [json.dumps] produces. *)
Definition encode (s : string) : bytes := list_byte_of_string s.

Inductive exn : Set :=
| IndexError
| AttributeError
| InvalidSignature
| DanglingReference.   (* a reference to no object: not a Python state *)

(** The result of a call: it returns, it raises, or the search it runs has
    not ended within the steps the model grants it. *)
Inductive outcome (A : Type) : Type :=
| Return (a : A)
| Raise (e : exn)
| Diverge.

Arguments Return {A} a.
Arguments Raise {A} e.
Arguments Diverge {A}.

(** What a function hands back when the source has no [return] in it. *)
Inductive pyval : Set :=
| PyNone
| PyBool (b : bool).

(** A JSON document, as [json.dumps] receives it: a [dict] keeps the order
    in which its keys were written. *)
Inductive json : Type :=
| JNull
| JInt (z : Z)
| JFloat (f : float)
| JStr (s : string)
| JList (l : list json)
| JDict (l : list (string * json)).

(** ["0" * n]: the text repeated, empty when [n <= 0]. *)
Fixpoint str_repeat (s : string) (n : nat) : string :=
  match n with
  | O => ""
  | S n' => String.append s (str_repeat s n')
  end.

Definition str_mul (s : string) (n : Z) : string := str_repeat s (Z.to_nat n).

(** *** [round(x, ndigits)] on a float, for [0 <= ndigits]

    CPython rounds the exact binary value of [x] to [ndigits] decimals, ties
    to even, and returns the double nearest to that decimal. *)

Definition div_half_even (n d : Z) : Z :=
  let q := n / d in
  let r := n mod d in
  match (2 * r) ?= d with
  | Lt => q
  | Gt => q + 1
  | Eq => if Z.even q then q else q + 1
  end.

Definition round (x : float) (ndigits : Z) : float :=
  match Prim2SF x with
  | S754_finite s m e =>
      if 0 <=? e then x
      else
        match div_half_even (Zpos m * 10 ^ ndigits) (2 ^ (- e)) with
        | Zpos p =>
            SF2Prim (SFdiv prec emax (S754_finite s p 0)
                       (S754_finite false (Z.to_pos (10 ^ ndigits)) 0))
        | _ => SF2Prim (S754_zero s)
        end
  | _ => x
  end.

(** *** [sum(floats)]

    The builtin starts from the integer 0.  Up to Python 3.11 it adds from
    left to right; from 3.12 on it carries Neumaier's compensation term. *)

Fixpoint sum_plain (xs : list float) (acc : float) : float :=
  match xs with
  | [] => acc
  | x :: rest => sum_plain rest (acc + x)%float
  end.

Fixpoint sum_neumaier (xs : list float) (f c : float) : float :=
  match xs with
  | [] => if negb (is_zero c) && is_finite c then (f + c)%float else f
  | x :: rest =>
      let t := (f + x)%float in
      let c' := if (abs x <=? abs f)%float
                then (c + ((f - t) + x))%float
                else (c + ((x - t) + f))%float in
      sum_neumaier rest t c'
  end.

Definition sum (compensated : bool) (xs : list float) : float :=
  match xs with
  | [] => 0%float
  | x :: rest =>
      let first := (0 + x)%float in
      if compensated then sum_neumaier rest first 0%float
      else sum_plain rest first
  end.

(** ** The libraries the program calls *)

Class Library : Type := {
  (* cryptography.hazmat.primitives.asymmetric.ec *)
  PrivateKey : Type;
  PublicKey : Type;
  PublicKey_eq_dec :: EqDecision PublicKey;
  (* private_key.public_key() *)
  derive_public_key : PrivateKey -> PublicKey;
  (* key.public_bytes(Encoding.PEM, SubjectPublicKeyInfo).decode() *)
  public_bytes : PublicKey -> string;
  (* private_key.sign(data, ECDSA(SHA256)), with the nonce it draws *)
  ecdsa_sign : PrivateKey -> bytes -> Z -> bytes;
  (* public_key.verify(signature, data, ECDSA(SHA256)):
     [None] when it returns, [Some e] when it raises [e] *)
  ecdsa_verify : PublicKey -> bytes -> bytes -> option exn;
  decode_dss_signature : bytes -> Z * Z;
  encode_dss_signature : Z -> Z -> bytes;
  (* hashlib.sha256(data).hexdigest() *)
  sha256_hexdigest : bytes -> string;
  (* json.dumps(obj, indent=..., sort_keys=...) *)
  json_dumps : json -> option nat -> bool -> string;
  (* whether the interpreter's sum() compensates (Python >= 3.12) *)
  sum_compensated : bool
}.

(** ** Wallet *)

Module Wallet.
Section defs.
Context `{Library}.

Record t : Type := mk {
  name : string;
  private_key : PrivateKey;
  public_key : PublicKey;
  balance : float
}.

(** [Wallet(name)]; [sk] is the key [ec.generate_private_key] draws. *)
Definition init (name : string) (sk : PrivateKey) : t :=
  {| name := name;
     private_key := sk;
     public_key := derive_public_key sk;
     balance := 0%float |}.

Definition set_balance (self : t) (b : float) : t :=
  {| name := name self;
     private_key := private_key self;
     public_key := public_key self;
     balance := b |}.

(** [k] is the nonce the signer draws. *)
Definition sign_transaction (self : t) (data : string) (k : Z) : bytes :=
  let signature := ecdsa_sign (private_key self) (encode data) k in
  let '(r, s) := decode_dss_signature signature in
  encode_dss_signature r s.

Definition verify_signature (self : t) (data : string) (signature : bytes) : bool :=
  match ecdsa_verify (public_key self) signature (encode data) with
  | None => true
  | Some _ => false
  end.

End defs.
End Wallet.

(** ** Transaction *)

Module Transaction.
Section defs.
Context `{Library}.

Record t : Type := mk {
  sender_public_key : PublicKey;
  recipient : PublicKey;
  amount : float;
  fee : float;
  timestamp : float;
  signature : bytes
}.

(** The five fields [to_dict] reads; none of them is the signature. *)
Definition to_dict_of (sender rcpt : PublicKey) (amount fee timestamp : float) : string :=
  json_dumps
    (JDict [("sender_public_key", JStr (public_bytes sender));
            ("recipient", JStr (public_bytes rcpt));
            ("amount", JFloat amount);
            ("fee", JFloat fee);
            ("timestamp", JFloat timestamp)])
    (Some 4%nat) false.

Definition to_dict (self : t) : string :=
  to_dict_of (sender_public_key self) (recipient self) (amount self) (fee self)
    (timestamp self).

Definition calculate_hash (self : t) : string :=
  sha256_hexdigest (encode (json_dumps (JStr (to_dict self)) None true)).

(** [sign_transaction] runs inside the constructor, before [signature]
    exists; it reads the other five fields only. *)
Definition sign_transaction_of (sender rcpt : PublicKey) (amount fee timestamp : float)
    (sender_wallet : Wallet.t) (k : Z) : bytes :=
  let data := json_dumps (JStr (to_dict_of sender rcpt amount fee timestamp)) None true in
  Wallet.sign_transaction sender_wallet data k.

Definition sign_transaction (self : t) (sender_wallet : Wallet.t) (k : Z) : bytes :=
  sign_transaction_of (sender_public_key self) (recipient self) (amount self)
    (fee self) (timestamp self) sender_wallet k.

(** [Transaction(sender_wallet, recipient_public_key, amount)]; [now] is
    what [time.time()] answers and [k] the signer's nonce. *)
Definition init (sender_wallet : Wallet.t) (recipient_public_key : PublicKey)
    (amount : float) (now : float) (k : Z) : t :=
  let sender := Wallet.public_key sender_wallet in
  let fee := round (0.005 * amount)%float 8 in
  {| sender_public_key := sender;
     recipient := recipient_public_key;
     amount := amount;
     fee := fee;
     timestamp := now;
     signature :=
       sign_transaction_of sender recipient_public_key amount fee now sender_wallet k |}.

(** [sender_wallet] is whatever the caller passes, [None] included: the
    method call on [None] raises. *)
Definition is_valid (self : t) (sender_wallet : option Wallet.t) : outcome bool :=
  let data := json_dumps (JStr (to_dict self)) None true in
  match sender_wallet with
  | Some w => Return (Wallet.verify_signature w data (signature self))
  | None => Raise AttributeError
  end.

End defs.
End Transaction.

(** ** Block *)

Module Block.
Section defs.
Context `{Library}.

Record t : Type := mk {
  index : Z;
  timestamp : float;
  transactions : list Transaction.t;
  previous_hash : option string;   (* a [str]; [None] only if copied from an unsealed block *)
  nonce : Z;
  difficulty : Z;
  miner : option PublicKey;        (* [None] for the genesis block *)
  hash : option string             (* [None] until the block is mined *)
}.

(** [Block(index, transactions, previous_hash, difficulty, miner)]. *)
Definition init (index : Z) (transactions : list Transaction.t)
    (previous_hash : option string) (difficulty : Z) (miner : option PublicKey)
    (now : float) : t :=
  {| index := index;
     timestamp := now;
     transactions := transactions;
     previous_hash := previous_hash;
     nonce := 0;
     difficulty := difficulty;
     miner := miner;
     hash := None |}.

Definition set_hash (self : t) (h : option string) : t :=
  {| index := index self; timestamp := timestamp self;
     transactions := transactions self; previous_hash := previous_hash self;
     nonce := nonce self; difficulty := difficulty self; miner := miner self;
     hash := h |}.

Definition set_nonce (self : t) (n : Z) : t :=
  {| index := index self; timestamp := timestamp self;
     transactions := transactions self; previous_hash := previous_hash self;
     nonce := n; difficulty := difficulty self; miner := miner self;
     hash := hash self |}.

Definition json_of_hash (h : option string) : json :=
  match h with
  | Some s => JStr s
  | None => JNull
  end.

Definition block_data (self : t) : json :=
  JDict [("index", JInt (index self));
         ("timestamp", JFloat (timestamp self));
         ("transactions", JList (map (fun tx => JStr (Transaction.to_dict tx))
                                   (transactions self)));
         ("previous_hash", json_of_hash (previous_hash self));
         ("nonce", JInt (nonce self));
         ("miner", JStr (match miner self with
                         | Some pk => public_bytes pk
                         | None => "GENESIS_BLOCK"
                         end))].

Definition calculate_hash (self : t) : string :=
  sha256_hexdigest (encode (json_dumps (block_data self) None true)).

(** The [while True] loop, run for at most [fuel] rounds: the hash it
    returns and the block as the loop leaves it. *)
Fixpoint mine_block (fuel : nat) (self : t) : option (string * t) :=
  match fuel with
  | O => None
  | S fuel' =>
      let prefix := str_mul "0" (difficulty self) in
      let h := calculate_hash self in
      let self := set_hash self (Some h) in
      if String.prefix prefix h then Some (h, self)
      else mine_block fuel' (set_nonce self (nonce self + 1))
  end.

End defs.
End Block.

(** ** Blockchain *)

Module Blockchain.

(** The identity of a [Wallet] object. *)
Abbreviation ref := nat (only parsing).

Section defs.
Context `{Library}.

Record t : Type := mk {
  chain : list Block.t;
  difficulty : Z;
  reward : float;
  wallets : gmap string ref      (* PEM text of a public key -> the wallet *)
}.

(** The objects a call can reach: every [Wallet] and the [Blockchain]. *)
Record store : Type := mkstore {
  heap : gmap ref Wallet.t;
  self : t
}.

(** [Blockchain(difficulty, reward)]; the defaults are 4 and 50.0. *)
Definition init (difficulty : Z) (reward : float) : t :=
  {| chain := []; difficulty := difficulty; reward := reward; wallets := ∅ |}.

(** *** Calls that read and write the store *)

Definition M (A : Type) : Type := store -> outcome A * store.

Definition ret {A} (a : A) : M A := fun s => (Return a, s).

Definition bind {A B} (c : M A) (k : A -> M B) : M B :=
  fun s =>
    match c s with
    | (Return a, s') => k a s'
    | (Raise e, s') => (Raise e, s')
    | (Diverge, s') => (Diverge, s')
    end.

Definition lift {A} (o : outcome A) : M A := fun s => (o, s).

Definition gets {A} (f : store -> A) : M A := fun s => (Return (f s), s).

Definition modify (f : store -> store) : M unit := fun s => (Return tt, f s).

Notation "x <- c ;; k" := (bind c (fun x => k))
  (at level 100, c at next level, k at level 200, right associativity).
Notation "c ;;; k" := (bind c (fun _ => k))
  (at level 100, k at level 200, right associativity).

(** Reading an attribute of the object behind [r]. *)
Definition deref (r : ref) : M Wallet.t :=
  fun s =>
    match heap s !! r with
    | Some w => (Return w, s)
    | None => (Raise DanglingReference, s)
    end.

(** A Python variable that holds a wallet or [None]. *)
Definition deref_opt (r : option ref) : M (option Wallet.t) :=
  match r with
  | Some r => w <- deref r ;; ret (Some w)
  | None => ret None
  end.

(** [wallet.balance = b]. *)
Definition store_balance (r : ref) (b : float) : M unit :=
  modify (fun s => {| heap := alter (fun w => Wallet.set_balance w b) r (heap s);
                      self := self s |}).

(** [wallet.balance += x] and [wallet.balance -= x]. *)
Definition iadd_balance (r : ref) (x : float) : M unit :=
  w <- deref r ;; store_balance r (Wallet.balance w + x)%float.

Definition isub_balance (r : ref) (x : float) : M unit :=
  w <- deref r ;; store_balance r (Wallet.balance w - x)%float.

(** [self.chain.append(b)]. *)
Definition chain_append (b : Block.t) : M unit :=
  modify (fun s =>
    {| heap := heap s;
       self := {| chain := chain (self s) ++ [b];
                  difficulty := difficulty (self s);
                  reward := reward (self s);
                  wallets := wallets (self s) |} |}).

(** [random.choice(seq)] with [rnd] the number the generator draws. *)
Definition random_choice {A} (rnd : nat) (seq : list A) : outcome A :=
  match seq !! (rnd mod length seq)%nat with
  | Some x => Return x
  | None => Raise IndexError
  end.

(** [block.mine_block()] on a block no other object refers to yet. *)
Definition run_mine_block (fuel : nat) (b : Block.t) : outcome Block.t :=
  match Block.mine_block fuel b with
  | Some (_, b') => Return b'
  | None => Diverge
  end.

(** *** The methods *)

Definition create_genesis_block (fuel : nat) (now : float) : M unit :=
  d <- gets (fun s => difficulty (self s)) ;;
  let genesis_block := Block.init 0 [] (Some "0") d None now in
  genesis_block <- lift (run_mine_block fuel genesis_block) ;;
  chain_append genesis_block.

Definition initialize (fuel : nat) (now : float) : M unit :=
  create_genesis_block fuel now.

Definition find_wallet_by_public_key (public_key : PublicKey) : M (option ref) :=
  let public_key_pem := public_bytes public_key in
  gets (fun s => wallets (self s) !! public_key_pem).

(** [transaction.is_valid(self.find_wallet_by_public_key(
      transaction.sender_public_key))]. *)
Definition is_valid_sender (transaction : Transaction.t) : M bool :=
  r <- find_wallet_by_public_key (Transaction.sender_public_key transaction) ;;
  w <- deref_opt r ;;
  lift (Transaction.is_valid transaction w).

(** The generator that [sum] consumes: the fees of the transactions whose
    check answers true, in order. *)
Fixpoint valid_fees (transactions : list Transaction.t) : M (list float) :=
  match transactions with
  | [] => ret []
  | transaction :: rest =>
      valid <- is_valid_sender transaction ;;
      fees <- valid_fees rest ;;
      ret (if valid : bool then Transaction.fee transaction :: fees else fees)
  end.

(** The body of the [for] loop under "Update balances". *)
Definition update_balance (transaction : Transaction.t) : M unit :=
  valid <- is_valid_sender transaction ;;
  if valid : bool then
    sender_wallet <- find_wallet_by_public_key (Transaction.sender_public_key transaction) ;;
    recipient_wallet <- find_wallet_by_public_key (Transaction.recipient transaction) ;;
    match sender_wallet with
    | Some r => isub_balance r (Transaction.amount transaction + Transaction.fee transaction)%float
    | None => ret tt
    end ;;;
    match recipient_wallet with
    | Some r => iadd_balance r (Transaction.amount transaction)
    | None => ret tt
    end
  else ret tt.

Fixpoint update_balances (transactions : list Transaction.t) : M unit :=
  match transactions with
  | [] => ret tt
  | transaction :: rest => update_balance transaction ;;; update_balances rest
  end.

(** [add_block(transactions, miner_wallets)]: [fuel] bounds the mining
    loop, [now] is the clock read by the [Block] constructor and [rnd] the
    draw of [random.choice]. *)
Definition add_block (fuel : nat) (now : float) (rnd : nat)
    (transactions : list Transaction.t) (miner_wallets : list ref) : M unit :=
  last_block <- (fun s => match last (chain (self s)) with
                          | Some b => (Return b, s)
                          | None => (Raise IndexError, s)
                          end) ;;
  let previous_hash := Block.hash last_block in
  miner <- lift (random_choice rnd miner_wallets) ;;
  fees <- valid_fees transactions ;;
  let total_fees := sum sum_compensated fees in
  len <- gets (fun s => length (chain (self s))) ;;
  d <- gets (fun s => difficulty (self s)) ;;
  miner_wallet <- deref miner ;;
  let new_block := Block.init (Z.of_nat len) transactions previous_hash d
                     (Some (Wallet.public_key miner_wallet)) now in
  new_block <- lift (run_mine_block fuel new_block) ;;
  chain_append new_block ;;;
  rw <- gets (fun s => reward (self s)) ;;
  iadd_balance miner (rw + total_fees)%float ;;;
  update_balances transactions.

(** [register_wallet(wallet)]. *)
Definition register_wallet (wallet : ref) : M unit :=
  w <- deref wallet ;;
  let public_key_pem := public_bytes (Wallet.public_key w) in
  modify (fun s =>
    {| heap := heap s;
       self := {| chain := chain (self s);
                  difficulty := difficulty (self s);
                  reward := reward (self s);
                  wallets := <[public_key_pem := wallet]> (wallets (self s)) |} |}).

(** The loop of [is_chain_valid] over [range(1, len(self.chain))]. *)
Fixpoint is_chain_valid_loop (chain : list Block.t) (range : list nat) : outcome bool :=
  match range with
  | [] => Return true
  | i :: range' =>
      match chain !! i, chain !! (i - 1)%nat with
      | Some current, Some previous =>
          if negb (bool_decide (Block.hash current = Some (Block.calculate_hash current)))
          then Return false
          else if negb (bool_decide (Block.previous_hash current = Block.hash previous))
          then Return false
          else is_chain_valid_loop chain range'
      | _, _ => Raise IndexError
      end
  end.

Definition is_chain_valid (self : t) : outcome bool :=
  is_chain_valid_loop (chain self) (seq 1 (length (chain self) - 1)).

End defs.
End Blockchain.

(** ** Pool *)

Module Pool.
Section defs.
Context `{Library}.

Record t : Type := mk {
  transactions : list Transaction.t
}.

Definition init : t := {| transactions := [] |}.

(** [sender_wallet] is read, not changed; the method has no [return]. *)
Definition add_transaction (self : t) (transaction : Transaction.t)
    (sender_wallet : Wallet.t) : t * pyval :=
  if (0 <? Transaction.amount transaction)%float
     && negb (bool_decide (Transaction.sender_public_key transaction
                           = Transaction.recipient transaction))
  then
    if (Transaction.amount transaction + Transaction.fee transaction
        <=? Wallet.balance sender_wallet)%float
    then ({| transactions := transactions self ++ [transaction] |}, PyNone)
    else (self, PyNone)
  else (self, PyNone).

Definition get_transactions (self : t) : list Transaction.t := transactions self.

Definition clear_transactions (self : t) : t := {| transactions := [] |}.

End defs.
End Pool.

(** ** Notions the properties are stated with *)

Module Notions.
Section defs.
Context `{Library}.

(** *** The signature scheme

    ECDSA accepts a signature under the key that made it and under no
    other, and a signature it makes is in canonical DER form. *)

Definition ecdsa_accepts_signer : Prop :=
  forall sk data k,
    ecdsa_verify (derive_public_key sk) (ecdsa_sign sk data k) data = None.

Definition ecdsa_rejects_other_keys : Prop :=
  forall sk pk data k,
    pk <> derive_public_key sk ->
    ecdsa_verify pk (ecdsa_sign sk data k) data <> None.

Definition dss_canonical : Prop :=
  forall sk data k,
    (let '(r, s) := decode_dss_signature (ecdsa_sign sk data k) in
     encode_dss_signature r s) = ecdsa_sign sk data k.

(** A wallet as [Wallet(name)] makes it, whatever its balance is now. *)
Definition keypair (w : Wallet.t) : Prop :=
  Wallet.public_key w = derive_public_key (Wallet.private_key w).

(** *** Blocks the program builds: by the constructor, then by mining *)

Inductive built : Block.t -> Prop :=
| built_init index transactions previous_hash difficulty miner now :
    built (Block.init index transactions previous_hash difficulty miner now)
| built_mined fuel b h b' :
    built b -> Block.mine_block fuel b = Some (h, b') -> built b'.

(** The test of the mining loop on the block with nonce [n]. *)
Definition meets_difficulty (b : Block.t) (n : Z) : bool :=
  String.prefix (str_mul "0" (Block.difficulty b))
    (Block.calculate_hash (Block.set_nonce b n)).

(** *** Ledgers the program reaches

    A fresh [Blockchain] is initialised once; after that come calls of
    [add_block] (whatever their outcome) and of [register_wallet], and
    anything that creates wallets or writes their attributes.  Nothing
    writes to a block once it is in the chain. *)

Inductive reachable : Blockchain.store -> Prop :=
| reach_initialize heap difficulty reward fuel now s :
    Blockchain.initialize fuel now
      {| Blockchain.heap := heap; Blockchain.self := Blockchain.init difficulty reward |}
    = (Return tt, s) ->
    reachable s
| reach_add_block s fuel now rnd transactions miner_wallets o s' :
    reachable s ->
    Blockchain.add_block fuel now rnd transactions miner_wallets s = (o, s') ->
    reachable s'
| reach_register_wallet s wallet o s' :
    reachable s ->
    Blockchain.register_wallet wallet s = (o, s') ->
    reachable s'
| reach_wallets s heap' :
    reachable s ->
    reachable {| Blockchain.heap := heap'; Blockchain.self := Blockchain.self s |}.

(** Every block carries the hash of its own content, and every block but
    the first carries the hash of the block before it. *)
Definition linked (chain : list Block.t) : Prop :=
  (forall (i : nat) b,
     chain !! i = Some b -> Block.hash b = Some (Block.calculate_hash b)) /\
  (forall (i : nat) current previous,
     chain !! S i = Some current -> chain !! i = Some previous ->
     Block.previous_hash current = Block.hash previous).

(** *** Writing to one field of a stored block *)

Inductive transaction_write : Type :=
| SetSender (sender_public_key : PublicKey)
| SetRecipient (recipient : PublicKey)
| SetAmount (amount : float)
| SetFee (fee : float)
| SetTransactionTimestamp (timestamp : float)
| SetSignature (signature : bytes).

Inductive block_write : Type :=
| SetIndex (index : Z)
| SetTimestamp (timestamp : float)
| SetTransactions (transactions : list Transaction.t)
| SetTransactionField (j : nat) (w : transaction_write)
| SetPreviousHash (previous_hash : option string)
| SetNonce (nonce : Z)
| SetDifficulty (difficulty : Z)
| SetMiner (miner : option PublicKey)
| SetHash (hash : option string).

Definition write_transaction (w : transaction_write) (tx : Transaction.t) : Transaction.t :=
  let '(Transaction.mk sender rcpt amount fee timestamp signature) := tx in
  match w with
  | SetSender x => Transaction.mk x rcpt amount fee timestamp signature
  | SetRecipient x => Transaction.mk sender x amount fee timestamp signature
  | SetAmount x => Transaction.mk sender rcpt x fee timestamp signature
  | SetFee x => Transaction.mk sender rcpt amount x timestamp signature
  | SetTransactionTimestamp x => Transaction.mk sender rcpt amount fee x signature
  | SetSignature x => Transaction.mk sender rcpt amount fee timestamp x
  end.

Definition write_block (w : block_write) (b : Block.t) : Block.t :=
  let '(Block.mk index timestamp transactions previous_hash nonce difficulty miner hash) := b in
  match w with
  | SetIndex x =>
      Block.mk x timestamp transactions previous_hash nonce difficulty miner hash
  | SetTimestamp x =>
      Block.mk index x transactions previous_hash nonce difficulty miner hash
  | SetTransactions x =>
      Block.mk index timestamp x previous_hash nonce difficulty miner hash
  | SetTransactionField j w =>
      Block.mk index timestamp (alter (write_transaction w) j transactions)
        previous_hash nonce difficulty miner hash
  | SetPreviousHash x =>
      Block.mk index timestamp transactions x nonce difficulty miner hash
  | SetNonce x =>
      Block.mk index timestamp transactions previous_hash x difficulty miner hash
  | SetDifficulty x =>
      Block.mk index timestamp transactions previous_hash nonce x miner hash
  | SetMiner x =>
      Block.mk index timestamp transactions previous_hash nonce difficulty x hash
  | SetHash x =>
      Block.mk index timestamp transactions previous_hash nonce difficulty miner x
  end.





Definition to_dict_injective : Prop :=
  forall tx1 tx2 : Transaction.t,
    Transaction.to_dict tx1 = Transaction.to_dict tx2 ->
    Transaction.sender_public_key tx1 = Transaction.sender_public_key tx2 /\
    Transaction.recipient tx1 = Transaction.recipient tx2 /\
    Transaction.amount tx1 = Transaction.amount tx2 /\
    Transaction.fee tx1 = Transaction.fee tx2 /\
    Transaction.timestamp tx1 = Transaction.timestamp tx2.


(** *** Rounding to a number of fractional digits

    [k] is the integer nearest to the fraction [num / den], the even one
    when two integers are equally near. *)
Definition nearest_integer (num den k : Z) : Prop :=
  2 * Z.abs (num - k * den) <= den /\
  (2 * Z.abs (num - k * den) = den -> Z.even k = true).

(** The double nearest to [k / 10 ^ ndigits], with the sign [s]: the
    quotient of the two integers as IEEE 754 division rounds it. *)
Definition decimal (s : bool) (k ndigits : Z) : float :=
  match k with
  | Zpos p =>
      SF2Prim (SFdiv prec emax (S754_finite s p 0)
                 (S754_finite false (Z.to_pos (10 ^ ndigits)) 0))
  | _ => SF2Prim (S754_zero s)
  end.

(** [y] is [x] rounded to [ndigits] fractional digits: an [x] that is an
    integer, an infinity or not a number is its own rounding; otherwise
    [x] is [m / 2 ^ (- e)] up to its sign, and [y] is the double nearest to
    [k / 10 ^ ndigits] for the integer [k] nearest to [x * 10 ^ ndigits]. *)
Definition rounded_to (x : float) (ndigits : Z) (y : float) : Prop :=
  match Prim2SF x with
  | S754_finite s m e =>
      if 0 <=? e then y = x
      else exists k : Z,
          0 <= k /\
          nearest_integer (Zpos m * 10 ^ ndigits) (2 ^ (- e)) k /\
          y = decimal s k ndigits
  | _ => y = x
  end.

(** The two checks of one round of [is_chain_valid]. *)
Definition round_ok (chain : list Block.t) (i : nat) : bool :=
  match chain !! i, chain !! (i - 1)%nat with
  | Some current, Some previous =>
      bool_decide (Block.hash current = Some (Block.calculate_hash current))
      && bool_decide (Block.previous_hash current = Block.hash previous)
  | _, _ => false
  end.

(** *** What one call of [add_block] does to a balance

    The specification describes the call wallet by wallet; the code walks
    the transactions and writes to the wallets it finds. *)

(** The transaction passes [is_valid] against the wallet registered for
    its sender. *)
Definition confirms (s : Blockchain.store) (tx : Transaction.t) : bool :=
  match Blockchain.wallets (Blockchain.self s)
        !! public_bytes (Transaction.sender_public_key tx) with
  | Some r =>
      match Blockchain.heap s !! r with
      | Some w =>
          match Transaction.is_valid tx (Some w) with
          | Return v => v
          | _ => false
          end
      | None => false
      end
  | None => false
  end.

(** The fees added up from left to right, starting from 0. *)
Definition added_up (fees : list float) : float :=
  fold_left (fun total fee => (total + fee)%float) fees 0%float.

(** The same with the rounding errors kept apart (Neumaier): [total] is
    the running sum, [lost] what the additions so far rounded away, added
    back at the end when it is a finite number other than zero.  The first
    fee is added to the integer 0, where nothing is lost. *)
Definition add_compensated (state : float * float) (fee : float) : float * float :=
  let '(total, lost) := state in
  let t := (total + fee)%float in
  (t, if (abs fee <=? abs total)%float
      then (lost + ((total - t) + fee))%float
      else (lost + ((fee - t) + total))%float).

Definition added_up_compensated (fees : list float) : float :=
  match fees with
  | [] => 0%float
  | fee :: rest =>
      let '(total, lost) := fold_left add_compensated rest ((0 + fee)%float, 0%float) in
      if negb (is_zero lost) && is_finite lost then (total + lost)%float else total
  end.

(** [total_fees]: the fees of the transactions that pass, added up the
    way the interpreter's [sum] adds floats up. *)
Definition total_fees (s : Blockchain.store) (txs : list Transaction.t) : float :=
  let fees := map Transaction.fee (List.filter (confirms s) txs) in
  if sum_compensated then added_up_compensated fees else added_up fees.

(** The wallet object [l] is the one registered under the key [pk]. *)
Definition registered_as (s : Blockchain.store) (pk : PublicKey) (l : Blockchain.ref) : bool :=
  bool_decide (Blockchain.wallets (Blockchain.self s) !! public_bytes pk = Some l).

(** The balance [b] of wallet [l] after one transaction is settled. *)
Definition settle_one (s : Blockchain.store) (l : Blockchain.ref) (b : float)
    (tx : Transaction.t) : float :=
  if confirms s tx then
    let b := if registered_as s (Transaction.sender_public_key tx) l
             then (b - (Transaction.amount tx + Transaction.fee tx))%float else b in
    if registered_as s (Transaction.recipient tx) l
    then (b + Transaction.amount tx)%float else b
  else b.

Definition settle (s : Blockchain.store) (l : Blockchain.ref) (b : float)
    (txs : list Transaction.t) : float :=
  fold_left (settle_one s l) txs b.

(** The balance of wallet [l] once the miner is paid. *)
Definition pay_miner (s : Blockchain.store) (miner l : Blockchain.ref) (b : float)
    (txs : list Transaction.t) : float :=
  if bool_decide (l = miner)
  then (b + (Blockchain.reward (Blockchain.self s) + total_fees s txs))%float
  else b.

Definition balance_after (s : Blockchain.store) (miner : Blockchain.ref)
    (txs : list Transaction.t) (l : Blockchain.ref) (b : float) : float :=
  settle s l (pay_miner s miner l b txs) txs.

(** The sender of the transaction is registered, and every wallet the
    registry names for its sender or recipient is an object of the store. *)
Definition resolvable (s : Blockchain.store) (tx : Transaction.t) : Prop :=
  (exists r, Blockchain.wallets (Blockchain.self s)
             !! public_bytes (Transaction.sender_public_key tx) = Some r /\
             is_Some (Blockchain.heap s !! r)) /\
  (forall r, Blockchain.wallets (Blockchain.self s)
             !! public_bytes (Transaction.recipient tx) = Some r ->
             is_Some (Blockchain.heap s !! r)).

(** Two wallets that differ in their balance at most. *)
Definition same_wallet (w w' : Wallet.t) : Prop :=
  Wallet.name w' = Wallet.name w /\
  Wallet.private_key w' = Wallet.private_key w /\
  Wallet.public_key w' = Wallet.public_key w.

(** Two stores with the same ledger and the same wallets, balances apart. *)
Definition same_wallets (s t : Blockchain.store) : Prop :=
  Blockchain.wallets (Blockchain.self t) = Blockchain.wallets (Blockchain.self s) /\
  forall r : Blockchain.ref,
    match Blockchain.heap s !! r, Blockchain.heap t !! r with
    | Some w, Some w' => same_wallet w w'
    | None, None => True
    | _, _ => False
    end.

(** A store [t'] that holds, for every wallet of [t], the same wallet with
    the balance [f] computes. *)
Definition rebalanced (t t' : Blockchain.store) (f : Blockchain.ref -> float -> float) : Prop :=
  Blockchain.self t' = Blockchain.self t /\
  forall l : Blockchain.ref,
    match Blockchain.heap t !! l, Blockchain.heap t' !! l with
    | Some w, Some w' => same_wallet w w' /\ Wallet.balance w' = f l (Wallet.balance w)
    | None, None => True
    | _, _ => False
    end.

(** *** The end-to-end scenarios of the specification

    Two wallets, W1 and W2, are the objects 0 and 1 of the store; the
    ledger has difficulty 2 and reward 50. *)

Definition scenario_start (sk1 sk2 : PrivateKey) : Blockchain.store :=
  {| Blockchain.heap := {[ 0%nat := Wallet.init "W1" sk1; 1%nat := Wallet.init "W2" sk2 ]};
     Blockchain.self := Blockchain.init 2 50%float |}.

(** Scenario A: initialise, register both wallets, mine an empty block
    with W1 as the only candidate miner. *)
Definition scenario_A (fuel : nat) (t0 t1 : float) (rnd : nat) : Blockchain.M unit :=
  Blockchain.bind (Blockchain.initialize fuel t0) (fun _ =>
  Blockchain.bind (Blockchain.register_wallet 0%nat) (fun _ =>
  Blockchain.bind (Blockchain.register_wallet 1%nat) (fun _ =>
  Blockchain.add_block fuel t1 rnd [] [0%nat]))).

Definition admit_all (pool : Pool.t) (txs : list Transaction.t) (sender_wallet : Wallet.t) : Pool.t :=
  fold_left (fun pool tx => fst (Pool.add_transaction pool tx sender_wallet)) txs pool.

(** From scenario A, W1 signs one transfer to W2 per order (an amount, the
    clock and the signer's nonce); each is offered to the pool against
    W1, and the pool is mined into one block with W2 as the only
    candidate miner.  The call returns the pool. *)
Definition scenario_transfers (fuel : nat) (t0 t1 t3 : float) (rnd1 rnd2 : nat)
    (orders : list (float * float * Z)) : Blockchain.M Pool.t :=
  Blockchain.bind (scenario_A fuel t0 t1 rnd1) (fun _ =>
  Blockchain.bind (Blockchain.deref 0%nat) (fun w1 =>
  Blockchain.bind (Blockchain.deref 1%nat) (fun w2 =>
  let txs := map (fun o : float * float * Z =>
                    Transaction.init w1 (Wallet.public_key w2) (fst (fst o))
                      (snd (fst o)) (snd o)) orders in
  let pool := admit_all Pool.init txs w1 in
  Blockchain.bind (Blockchain.add_block fuel t3 rnd2 (Pool.get_transactions pool) [1%nat])
    (fun _ => Blockchain.ret pool)))).

(** The balance of the wallet object [r], if there is one. *)
Definition balance_of (s : Blockchain.store) (r : Blockchain.ref) : option float :=
  Wallet.balance <$> Blockchain.heap s !! r.

(** *** Pool admission, in the words of the specification *)

Definition admissible (transaction : Transaction.t) (sender_wallet : Wallet.t) : Prop :=
  (0 <? Transaction.amount transaction)%float = true /\
  Transaction.sender_public_key transaction <> Transaction.recipient transaction /\
  (Transaction.amount transaction + Transaction.fee transaction
   <=? Wallet.balance sender_wallet)%float = true.

End defs.
End Notions.

(** ** A small instance of the interface

    Keys are numbers, a signature is as long as the key plus the payload,
    and the digest of a text starts with two zeros when its length is a
    multiple of three.  It stands in for the real libraries wherever a
    statement is run on concrete data. *)

Module Toy.

Fixpoint dumps (j : json) : string :=
  match j with
  | JNull => "null"
  | JInt z => str_repeat "1" (Z.abs_nat z)
  | JFloat f => "f"
  | JStr s => String.append "'" (String.append s "'")
  | JList l => String.append "[" (String.append (String.concat "," (map dumps l)) "]")
  | JDict l =>
      String.append "{"
        (String.append
           (String.concat ","
              (map (fun kv => String.append (fst kv) (String.append ":" (dumps (snd kv)))) l))
           "}")
  end.

Definition digest (data : bytes) : string :=
  if (length data mod 3 =? 0)%nat then "00c0ffee" else "badc0de5".

Definition zeros (n : nat) : bytes := repeat Byte.x00 n.

Definition verify (pk : nat) (signature data : bytes) : option exn :=
  if (length signature =? pk + length data)%nat then None else Some InvalidSignature.

#[local] Instance lib : Library := {|
  PrivateKey := nat;
  PublicKey := nat;
  derive_public_key := fun sk => sk;
  public_bytes := fun pk => str_repeat "k" pk;
  ecdsa_sign := fun sk data _ => zeros (sk + length data);
  ecdsa_verify := verify;
  decode_dss_signature := fun sig => (Z.of_nat (length sig), 0);
  encode_dss_signature := fun r _ => zeros (Z.to_nat r);
  sha256_hexdigest := digest;
  json_dumps := fun j _ _ => dumps j;
  sum_compensated := false
|}.

(** The wallets of the scenarios, with the keys 1 and 2. *)
Definition w1 : Wallet.t := Wallet.set_balance (Wallet.init "W1" 1%nat) 50%float.
Definition w2 : Wallet.t := Wallet.init "W2" 2%nat.

Definition start : Blockchain.store := Notions.scenario_start 1%nat 2%nat.

(** Scenario A step by step, then scenario B. *)
Definition s1 : Blockchain.store := snd (Blockchain.initialize 5 1%float start).
Definition s2 : Blockchain.store := snd (Blockchain.register_wallet 0%nat s1).
Definition s3 : Blockchain.store := snd (Blockchain.register_wallet 1%nat s2).
Definition s4 : Blockchain.store := snd (Blockchain.add_block 5 2%float 0 [] [0%nat] s3).

Definition tx : Transaction.t := Transaction.init w1 2%nat 10%float 3%float 7.

Definition s5 : Blockchain.store := snd (Blockchain.add_block 5 4%float 0 [tx] [1%nat] s4).

(** Two transfers of 30 mined in one block. *)
Definition tx30 : Transaction.t := Transaction.init w1 2%nat 30%float 3%float 7.
Definition tx30' : Transaction.t := Transaction.init w1 2%nat 30%float 3.5%float 8.

Definition s5' : Blockchain.store :=
  snd (Blockchain.add_block 5 4%float 0 [tx30; tx30'] [1%nat] s4).

(** A transfer signed by a wallet that was never registered. *)
Definition stranger : Wallet.t := Wallet.init "W3" 3%nat.
Definition tx_stranger : Transaction.t :=
  Transaction.init stranger 2%nat 1%float 3%float 9.

(** The second block of [s5], and the first. *)
Definition block1 : Block.t :=
  default (Block.init 0 [] None 0 None 0%float) (Blockchain.chain (Blockchain.self s5) !! 1%nat).

(** A block as [add_block] hands it to the miner. *)
Definition fresh_block : Block.t :=
  Block.init 1 [] (Some "00c0ffee") 2 (Some 1%nat) 2%float.

End Toy.

(** ** Further notions: the rest of the ledger, the pool and the demo *)

Module More.
Section defs.
Context `{Library}.

(** The test [add_transaction] makes, as a boolean. *)
Definition admits (transaction : Transaction.t) (sender_wallet : Wallet.t) : bool :=
  (0 <? Transaction.amount transaction)%float
  && negb (bool_decide (Transaction.sender_public_key transaction
                        = Transaction.recipient transaction))
  && (Transaction.amount transaction + Transaction.fee transaction
      <=? Wallet.balance sender_wallet)%float.

(** A block that carries the hash of its content, and whose hash passes
    the difficulty the block states. *)
Definition sealed (b : Block.t) : Prop :=
  Block.hash b = Some (Block.calculate_hash b) /\
  String.prefix (str_mul "0" (Block.difficulty b)) (Block.calculate_hash b) = true.

(** Every wallet the registry names is an object of the store. *)
Definition registry_live (s : Blockchain.store) : Prop :=
  forall (pem : string) (r : Blockchain.ref),
    Blockchain.wallets (Blockchain.self s) !! pem = Some r ->
    is_Some (Blockchain.heap s !! r).

(** A chain as the ledger with difficulty [d] builds it: block [i] has
    index [i], states the difficulty [d] and is sealed; the first block has
    no transactions, no miner and the previous hash ["0"]. *)
Definition well_shaped (d : Z) (chain : list Block.t) : Prop :=
  (forall (i : nat) b,
     chain !! i = Some b ->
     Block.index b = Z.of_nat i /\ Block.difficulty b = d /\ sealed b) /\
  (exists g,
     chain !! 0%nat = Some g /\ Block.transactions g = [] /\
     Block.previous_hash g = Some "0" /\ Block.miner g = None).

End defs.
End More.

(** ** The demo of the source, [main()]

    The three wallets Alice, Bob and Charlie are the objects 0, 1 and 2 of
    the store, and the ledger is [Blockchain()], with its default
    difficulty 4 and reward 50.  What [main] prints is what it returns
    here: the balances after the first block, the balances after the second
    and the answer of [is_chain_valid]. *)

Module Demo.
Section defs.
Context `{Library}.

Local Notation "x <- c ;; k" := (Blockchain.bind c (fun x => k))
  (at level 100, c at next level, k at level 200, right associativity).
Local Notation "c ;;; k" := (Blockchain.bind c (fun _ => k))
  (at level 100, k at level 200, right associativity).

Definition start (alice_key bob_key charlie_key : PrivateKey) : Blockchain.store :=
  {| Blockchain.heap :=
       {[ 0%nat := Wallet.init "Alice" alice_key;
          1%nat := Wallet.init "Bob" bob_key;
          2%nat := Wallet.init "Charlie" charlie_key ]};
     Blockchain.self := Blockchain.init 4 50%float |}.

(** [for wallet in wallets: blockchain.register_wallet(wallet)]. *)
Fixpoint register_all (wallets : list Blockchain.ref) : Blockchain.M unit :=
  match wallets with
  | [] => Blockchain.ret tt
  | wallet :: rest => Blockchain.register_wallet wallet ;;; register_all rest
  end.

(** [for wallet in wallets: print(f"{wallet.name}: {wallet.balance}")]. *)
Fixpoint balances (wallets : list Blockchain.ref) : Blockchain.M (list (string * float)) :=
  match wallets with
  | [] => Blockchain.ret []
  | wallet :: rest =>
      w <- Blockchain.deref wallet ;;
      lines <- balances rest ;;
      Blockchain.ret ((Wallet.name w, Wallet.balance w) :: lines)
  end.

Definition main (fuel : nat) (t0 t1 t2 t3 : float) (rnd1 rnd2 : nat) (k : Z)
  : Blockchain.M (list (string * float) * list (string * float) * bool) :=
  let alice_wallet := 0%nat in
  let bob_wallet := 1%nat in
  let charlie_wallet := 2%nat in
  let wallets := [alice_wallet; bob_wallet; charlie_wallet] in
  Blockchain.initialize fuel t0 ;;;
  register_all wallets ;;;
  let pool := Pool.init in
  Blockchain.add_block fuel t1 rnd1 (Pool.get_transactions pool) [alice_wallet] ;;;
  let pool := Pool.clear_transactions pool in
  after_first <- balances wallets ;;
  alice <- Blockchain.deref alice_wallet ;;
  bob <- Blockchain.deref bob_wallet ;;
  let transaction1 := Transaction.init alice (Wallet.public_key bob) 10%float t2 k in
  let pool := fst (Pool.add_transaction pool transaction1 alice) in
  Blockchain.add_block fuel t3 rnd2 (Pool.get_transactions pool) [charlie_wallet] ;;;
  let pool := Pool.clear_transactions pool in
  after_second <- balances wallets ;;
  valid <- (fun s => (Blockchain.is_chain_valid (Blockchain.self s), s)) ;;
  Blockchain.ret (after_first, after_second, valid).

End defs.
End Demo.

(** ** The small instance again, with digests that pass difficulty 4 *)

Module Toy4.

Definition digest (data : bytes) : string :=
  if (length data mod 3 =? 0)%nat then "0000c0ffee" else "badc0de5".

#[local] Instance lib : Library := {|
  PrivateKey := nat;
  PublicKey := nat;
  derive_public_key := fun sk => sk;
  public_bytes := fun pk => str_repeat "k" pk;
  ecdsa_sign := fun sk data _ => Toy.zeros (sk + length data);
  ecdsa_verify := Toy.verify;
  decode_dss_signature := fun sig => (Z.of_nat (length sig), 0);
  encode_dss_signature := fun r _ => Toy.zeros (Z.to_nat r);
  sha256_hexdigest := digest;
  json_dumps := fun j _ _ => Toy.dumps j;
  sum_compensated := true
|}.

(** Scenario A on this instance, then three transfers of 20, 40 and 60
    from W1 to W2 mined by W2. *)
Definition w1 : Wallet.t := Wallet.set_balance (Wallet.init "W1" 1%nat) 50%float.

Definition s4 : Blockchain.store :=
  snd (Blockchain.add_block 5 2%float 0 [] [0%nat]
         (snd (Blockchain.register_wallet 1%nat
                 (snd (Blockchain.register_wallet 0%nat
                         (snd (Blockchain.initialize 5 1%float
                                 (Notions.scenario_start 1%nat 2%nat)))))))).

Definition three_transfers : list Transaction.t :=
  [Transaction.init w1 2%nat 20%float 3%float 7;
   Transaction.init w1 2%nat 40%float 3.25%float 8;
   Transaction.init w1 2%nat 60%float 3.5%float 9].

Definition s5 : Blockchain.store :=
  snd (Blockchain.add_block 5 4%float 0 three_transfers [1%nat] s4).

End Toy4.

(** ** More concrete data for the small instance *)

Module ToyMore.
Section defs.
#[local] Existing Instance Toy.lib.

(** [Toy.tx] with its signature cut off. *)
Definition tx_forged : Transaction.t :=
  Notions.write_transaction (Notions.SetSignature []) Toy.tx.

(** A transfer from W1 to W1. *)
Definition tx_self : Transaction.t :=
  Transaction.init Toy.w1 1%nat 10%float 3%float 7.

(** Two wallet objects with the same key. *)
Definition twins : Blockchain.store :=
  {| Blockchain.heap := {[ 0%nat := Wallet.init "W1" 1%nat; 1%nat := Wallet.init "W1 again" 1%nat ]};
     Blockchain.self := Blockchain.init 2 50%float |}.

(** A block that asks for no leading zero. *)
Definition easy_block : Block.t := Block.init 1 [] (Some "00c0ffee") 0 None 2%float.

Definition sealed_block : Block.t :=
  Block.set_hash (Block.set_nonce Toy.fresh_block 2) (Some "00c0ffee").


(** Three transfers of 20, 40 and 60 from W1 to W2, mined by W2 on top of
    scenario A. *)
Definition three_transfers : list Transaction.t :=
  [Transaction.init Toy.w1 2%nat 20%float 3%float 7;
   Transaction.init Toy.w1 2%nat 40%float 3.25%float 8;
   Transaction.init Toy.w1 2%nat 60%float 3.5%float 9].

Definition s5_three : Blockchain.store :=
  snd (Blockchain.add_block 5 4%float 0 three_transfers [1%nat] Toy.s4).

End defs.
End ToyMore.

(** ** An instance that confuses no two values

    The text of a JSON document is the number that stdpp's encoding of
    countable types gives its tree, written in hexadecimal; the digest of a text
    is the text itself after two zeros, so every block passes a difficulty
    of 2 at the first nonce.  Keys and signatures are those of [Toy]. *)

Module Exact.

Definition leaf : Type := Z + (nat * bool * positive * Z) + string.

Definition float_code (f : float) : nat * bool * positive * Z :=
  match Prim2SF f with
  | S754_zero s => (0%nat, s, 1%positive, 0)
  | S754_infinity s => (1%nat, s, 1%positive, 0)
  | S754_nan => (2%nat, false, 1%positive, 0)
  | S754_finite s m e => (3%nat, s, m, e)
  end.

Fixpoint to_tree (j : json) : gen_tree leaf :=
  match j with
  | JNull => GenNode 0 []
  | JInt z => GenLeaf (inl (inl z))
  | JFloat f => GenLeaf (inl (inr (float_code f)))
  | JStr s => GenLeaf (inr s)
  | JList l => GenNode 1 (map to_tree l)
  | JDict l =>
      GenNode 2 (map (fun kv => GenNode 3 [GenLeaf (inr (fst kv)); to_tree (snd kv)]) l)
  end.

Definition dumps (j : json) : string := HexString.of_pos (countable.encode (to_tree j)).

Definition digest (data : bytes) : string := String.append "00" (string_of_list_byte data).

#[local] Instance lib : Library := {|
  PrivateKey := nat;
  PublicKey := nat;
  derive_public_key := fun sk => sk;
  public_bytes := fun pk => str_repeat "k" pk;
  ecdsa_sign := fun sk data _ => Toy.zeros (sk + length data);
  ecdsa_verify := Toy.verify;
  decode_dss_signature := fun sig => (Z.of_nat (length sig), 0);
  encode_dss_signature := fun r _ => Toy.zeros (Z.to_nat r);
  sha256_hexdigest := digest;
  json_dumps := fun j _ _ => dumps j;
  sum_compensated := false
|}.

Definition w1 : Wallet.t := Wallet.set_balance (Wallet.init "W1" 1%nat) 50%float.

Definition tx : Transaction.t := Transaction.init w1 2%nat 10%float 3%float 7.

(** A ledger with W1 and W2 registered and two blocks, the second with one
    transfer. *)
Definition s1 : Blockchain.store :=
  snd (Blockchain.initialize 1 1%float (Notions.scenario_start 1%nat 2%nat)).
Definition s2 : Blockchain.store := snd (Blockchain.register_wallet 0%nat s1).
Definition s3 : Blockchain.store := snd (Blockchain.register_wallet 1%nat s2).
Definition s4 : Blockchain.store :=
  snd (Blockchain.add_block 1 2%float 0 [tx] [1%nat] s3).

Definition block1 : Block.t :=
  default (Block.init 0 [] None 0 None 0%float) (Blockchain.chain (Blockchain.self s4) !! 1%nat).

End Exact.

(** * Properties *)

Import Notions.

(** ** Texts *)

Lemma get_str_repeat_zero (n i : nat) :
  (i < n)%nat -> String.get i (str_repeat "0" n) = Some "0"%char.
Proof.
  revert i. induction n as [|n IH]; intros i Hi; [lia|].
  destruct i as [|i]; simpl; [reflexivity|]. apply IH. lia.
Qed.

Lemma prefix_get (p : string) :
  forall (h : string) (i : nat) (c : Ascii.ascii),
    String.prefix p h = true -> String.get i p = Some c -> String.get i h = Some c.
Proof.
  induction p as [|a p IH]; intros h i c Hp Hg; [destruct i; discriminate|].
  destruct h as [|b h]; simpl in Hp; [discriminate|].
  destruct (Ascii.ascii_dec a b) as [->|]; [|discriminate].
  destruct i as [|i]; simpl in *; [exact Hg|]. eapply IH; eassumption.
Qed.

Section properties.
Context `{Library}.

(** ** Mining *)

Lemma calculate_hash_set_hash (b : Block.t) (h : option string) :
  Block.calculate_hash (Block.set_hash b h) = Block.calculate_hash b.
Proof. reflexivity. Qed.

Lemma mine_block_inv (fuel : nat) :
  forall (b b' : Block.t) (h : string),
    Block.mine_block fuel b = Some (h, b') ->
    b' = Block.set_hash (Block.set_nonce b (Block.nonce b')) (Some h) /\
    h = Block.calculate_hash b' /\
    meets_difficulty b (Block.nonce b') = true /\
    Block.nonce b <= Block.nonce b' /\
    (forall n, Block.nonce b <= n < Block.nonce b' -> meets_difficulty b n = false).
Proof.
  induction fuel as [|fuel IH]; intros b b' h Hm; [discriminate|].
  simpl in Hm.
  destruct (String.prefix (str_mul "0" (Block.difficulty b)) (Block.calculate_hash b))
    eqn:Hp.
  - injection Hm as <- <-. simpl.
    assert (Hb : Block.set_nonce b (Block.nonce b) = b) by (destruct b; reflexivity).
    repeat split.
    + unfold meets_difficulty. rewrite Hb. exact Hp.
    + lia.
    + intros n Hn. lia.
  - apply IH in Hm as (Hb' & Hh & Hmeet & Hle & Hleast). simpl in *.
    repeat split.
    + rewrite Hb' at 1. reflexivity.
    + exact Hh.
    + exact Hmeet.
    + lia.
    + intros n Hn. destruct (Z.eq_dec n (Block.nonce b)) as [->|Hne].
      * unfold meets_difficulty.
        assert (Hb : Block.set_nonce b (Block.nonce b) = b) by (destruct b; reflexivity).
        rewrite Hb. exact Hp.
      * apply Hleast. lia.
Qed.

(** Mining returns as soon as the fuel reaches a nonce that passes. *)
Lemma mine_block_returns (fuel : nat) :
  forall (b : Block.t) (n : Z),
    Block.nonce b <= n -> meets_difficulty b n = true ->
    (Z.to_nat (n - Block.nonce b) < fuel)%nat ->
    exists h b', Block.mine_block fuel b = Some (h, b').
Proof.
  induction fuel as [|fuel IH]; intros b n Hle Hn Hfuel; [lia|].
  simpl.
  destruct (String.prefix (str_mul "0" (Block.difficulty b)) (Block.calculate_hash b))
    eqn:Hp; [eauto|].
  destruct (Z.eq_dec n (Block.nonce b)) as [->|Hne].
  - unfold meets_difficulty in Hn.
    assert (Hb : Block.set_nonce b (Block.nonce b) = b) by (destruct b; reflexivity).
    rewrite Hb in Hn. congruence.
  - apply (IH _ n); simpl; [lia|exact Hn|lia].
Qed.

Lemma built_least (b : Block.t) :
  built b ->
  0 <= Block.nonce b /\
  (forall n, 0 <= n < Block.nonce b -> meets_difficulty b n = false).
Proof.
  induction 1 as [|fuel b h b' _ [IH0 IH] Hm].
  - simpl. split; [lia|]. intros n Hn. lia.
  - apply mine_block_inv in Hm as (Hb' & _ & _ & Hle & Hleast).
    split; [lia|]. intros n Hn.
    assert (Hmd : meets_difficulty b' n = meets_difficulty b n)
      by (rewrite Hb'; reflexivity).
    rewrite Hmd. destruct (Z_lt_le_dec n (Block.nonce b)); [apply IH|apply Hleast]; lia.
Qed.

(** C5: when [mine_block] returns on a block the program built, the value
    returned is the stored hash, the stored hash is [calculate_hash] of the
    block as mining left it, its text starts with [difficulty] zeros, and no
    nonce from 0 up to the stored one passes the test. *)
Theorem mine_block_seals (fuel : nat) (b b' : Block.t) (h : string) :
  built b ->
  Block.mine_block fuel b = Some (h, b') ->
  Block.hash b' = Some h /\
  Block.hash b' = Some (Block.calculate_hash b') /\
  String.prefix (str_mul "0" (Block.difficulty b')) h = true /\
  (forall i, (i < Z.to_nat (Block.difficulty b'))%nat -> String.get i h = Some "0"%char) /\
  0 <= Block.nonce b' /\
  meets_difficulty b' (Block.nonce b') = true /\
  (forall n, 0 <= n < Block.nonce b' -> meets_difficulty b' n = false).
Proof.
  intros Hb Hm.
  destruct (built_least b' (built_mined _ _ _ _ Hb Hm)) as [H0 Hleast].
  apply mine_block_inv in Hm as (Hb' & Hh & Hmeet & Hle & _).
  assert (Hhash : Block.hash b' = Some h) by (rewrite Hb'; reflexivity).
  assert (Hmd : meets_difficulty b' (Block.nonce b') = true)
    by (rewrite Hb'; exact Hmeet).
  assert (Hpre : String.prefix (str_mul "0" (Block.difficulty b')) h = true).
  { unfold meets_difficulty in Hmd.
    assert (Hn : Block.set_nonce b' (Block.nonce b') = b') by (destruct b'; reflexivity).
    rewrite Hn, <- Hh in Hmd. exact Hmd. }
  repeat split; try assumption.
  - rewrite Hhash, <- Hh. reflexivity.
  - intros i Hi. eapply prefix_get; [exact Hpre|]. apply get_str_repeat_zero, Hi.
Qed.

(** ** The pool *)

(** C8, amended: the transaction is appended exactly when the three
    conditions hold, the pool is left as it was otherwise, and in both
    cases the call returns [None]. *)
Theorem add_transaction_admits (self : Pool.t) (transaction : Transaction.t)
    (sender_wallet : Wallet.t) :
  (admissible transaction sender_wallet <->
   fst (Pool.add_transaction self transaction sender_wallet)
   = {| Pool.transactions := Pool.transactions self ++ [transaction] |}) /\
  (~ admissible transaction sender_wallet ->
   fst (Pool.add_transaction self transaction sender_wallet) = self) /\
  snd (Pool.add_transaction self transaction sender_wallet) = PyNone.
Proof.
  assert (Hself : forall p : Pool.t,
             p <> {| Pool.transactions := Pool.transactions p ++ [transaction] |}).
  { intros [l] E. simpl in E. injection E as E.
    apply (f_equal (@length _)) in E. rewrite length_app in E. simpl in E. lia. }
  unfold admissible, Pool.add_transaction.
  destruct (0 <? Transaction.amount transaction)%float; simpl.
  - case_bool_decide as Hk; simpl.
    + split; [split|split].
      * intros (_ & Hd & _). contradiction.
      * intros E. destruct (Hself _ E).
      * reflexivity.
      * reflexivity.
    + destruct (_ <=? _)%float; simpl.
      * split; [split|split].
        -- reflexivity.
        -- intros _. auto.
        -- intros Hn. exfalso. apply Hn. auto.
        -- reflexivity.
      * split; [split|split].
        -- intros (_ & _ & Hb). discriminate.
        -- intros E. destruct (Hself _ E).
        -- reflexivity.
        -- reflexivity.
  - split; [split|split].
    + intros (Ha & _). discriminate.
    + intros E. destruct (Hself _ E).
    + reflexivity.
    + reflexivity.
Qed.

(** ** [add_block] without miners *)

(** C7: with an empty list of miners [add_block] raises and leaves the
    store, hence the chain and every balance, as it found it. *)
Theorem add_block_no_miner (s : Blockchain.store) (fuel : nat) (now : float)
    (rnd : nat) (transactions : list Transaction.t) :
  Blockchain.add_block fuel now rnd transactions [] s = (Raise IndexError, s).
Proof.
  unfold Blockchain.add_block, Blockchain.bind.
  destruct (last (Blockchain.chain (Blockchain.self s))); reflexivity.
Qed.

End properties.

(** ** Running the ledger's methods *)

(** One step of a call: the first call of a sequence returns, raises or
    does not end. *)
Ltac mstep H :=
  unfold Blockchain.bind in H at 1;
  match type of H with
  | match ?c with _ => _ end = _ =>
      let a := fresh "a" in
      let e := fresh "e" in
      let s1 := fresh "s" in
      let E := fresh "E" in
      destruct c as [[a|e|] s1] eqn:E; cbv beta iota in H
  end.

Ltac mdone H := injection H as <- <-.

Section ledger.
Context `{Library}.

Lemma deref_inv (r : Blockchain.ref) (s s' : Blockchain.store) (o : outcome Wallet.t) :
  Blockchain.deref r s = (o, s') ->
  s' = s /\
  match o with
  | Return w => Blockchain.heap s !! r = Some w
  | Raise e => Blockchain.heap s !! r = None /\ e = DanglingReference
  | Diverge => False
  end.
Proof.
  unfold Blockchain.deref. destruct (Blockchain.heap s !! r); intros E; mdone E; auto.
Qed.

Lemma is_valid_sender_pure (tx : Transaction.t) (s s' : Blockchain.store) (o : outcome bool) :
  Blockchain.is_valid_sender tx s = (o, s') -> s' = s.
Proof.
  unfold Blockchain.is_valid_sender, Blockchain.find_wallet_by_public_key,
    Blockchain.gets, Blockchain.deref_opt, Blockchain.lift, Blockchain.ret,
    Blockchain.bind, Blockchain.deref.
  destruct (Blockchain.wallets (Blockchain.self s) !! _) as [r|].
  - destruct (Blockchain.heap s !! r); intros E; mdone E; reflexivity.
  - intros E; mdone E; reflexivity.
Qed.

Lemma valid_fees_pure (txs : list Transaction.t) :
  forall (s s' : Blockchain.store) (o : outcome (list float)),
    Blockchain.valid_fees txs s = (o, s') -> s' = s.
Proof.
  induction txs as [|tx txs IH]; intros s s' o E; simpl in E.
  - mdone E. reflexivity.
  - mstep E.
    + apply is_valid_sender_pure in E0 as ->. mstep E.
      * apply IH in E0 as ->. mdone E. reflexivity.
      * apply IH in E0 as ->. mdone E. reflexivity.
      * apply IH in E0 as ->. mdone E. reflexivity.
    + apply is_valid_sender_pure in E0 as ->. mdone E. reflexivity.
    + apply is_valid_sender_pure in E0 as ->. mdone E. reflexivity.
Qed.

Lemma store_balance_self (r : Blockchain.ref) (b : float) (s s' : Blockchain.store)
    (o : outcome unit) :
  Blockchain.store_balance r b s = (o, s') -> Blockchain.self s' = Blockchain.self s.
Proof. intros E. mdone E. reflexivity. Qed.

Lemma iadd_balance_self (r : Blockchain.ref) (x : float) (s s' : Blockchain.store)
    (o : outcome unit) :
  Blockchain.iadd_balance r x s = (o, s') -> Blockchain.self s' = Blockchain.self s.
Proof.
  unfold Blockchain.iadd_balance. intros E. mstep E.
  - apply deref_inv in E0 as [-> _]. mdone E. reflexivity.
  - apply deref_inv in E0 as [-> _]. mdone E. reflexivity.
  - apply deref_inv in E0 as [-> _]. mdone E. reflexivity.
Qed.

Lemma isub_balance_self (r : Blockchain.ref) (x : float) (s s' : Blockchain.store)
    (o : outcome unit) :
  Blockchain.isub_balance r x s = (o, s') -> Blockchain.self s' = Blockchain.self s.
Proof.
  unfold Blockchain.isub_balance. intros E. mstep E.
  - apply deref_inv in E0 as [-> _]. mdone E. reflexivity.
  - apply deref_inv in E0 as [-> _]. mdone E. reflexivity.
  - apply deref_inv in E0 as [-> _]. mdone E. reflexivity.
Qed.

Lemma update_balance_self (tx : Transaction.t) (s s' : Blockchain.store) (o : outcome unit) :
  Blockchain.update_balance tx s = (o, s') -> Blockchain.self s' = Blockchain.self s.
Proof.
  unfold Blockchain.update_balance. intros E. mstep E;
    apply is_valid_sender_pure in E0 as ->; [|mdone E; reflexivity..].
  destruct a; [|mdone E; reflexivity].
  unfold Blockchain.find_wallet_by_public_key, Blockchain.gets in E.
  unfold Blockchain.bind in E at 1. cbv beta iota in E.
  unfold Blockchain.bind in E at 1. cbv beta iota in E.
  set (snd_ := Blockchain.wallets (Blockchain.self s)
              !! public_bytes (Transaction.sender_public_key tx)) in E.
  set (rcp_ := Blockchain.wallets (Blockchain.self s)
              !! public_bytes (Transaction.recipient tx)) in E.
  assert (Hs : forall s1 s2 o1,
             match snd_ with
             | Some r => Blockchain.isub_balance r
                           (Transaction.amount tx + Transaction.fee tx)%float
             | None => Blockchain.ret tt
             end s1 = (o1, s2) -> Blockchain.self s2 = Blockchain.self s1).
  { intros s1 s2 o1 E1. destruct snd_.
    - eapply isub_balance_self; exact E1.
    - mdone E1. reflexivity. }
  assert (Hr : forall s1 s2 o1,
             match rcp_ with
             | Some r => Blockchain.iadd_balance r (Transaction.amount tx)
             | None => Blockchain.ret tt
             end s1 = (o1, s2) -> Blockchain.self s2 = Blockchain.self s1).
  { intros s1 s2 o1 E1. destruct rcp_.
    - eapply iadd_balance_self; exact E1.
    - mdone E1. reflexivity. }
  mstep E.
  - apply Hs in E0. apply Hr in E. congruence.
  - mdone E. eapply Hs; exact E0.
  - mdone E. eapply Hs; exact E0.
Qed.

Lemma update_balances_self (txs : list Transaction.t) :
  forall (s s' : Blockchain.store) (o : outcome unit),
    Blockchain.update_balances txs s = (o, s') -> Blockchain.self s' = Blockchain.self s.
Proof.
  induction txs as [|tx txs IH]; intros s s' o E; simpl in E.
  - mdone E. reflexivity.
  - mstep E.
    + apply IH in E. apply update_balance_self in E0. congruence.
    + mdone E. eapply update_balance_self; exact E0.
    + mdone E. eapply update_balance_self; exact E0.
Qed.

End ledger.

(** ** The chain stays linked *)

Section chain.
Context `{Library}.

Lemma add_block_chain (fuel : nat) (now : float) (rnd : nat)
    (txs : list Transaction.t) (miners : list Blockchain.ref)
    (s s' : Blockchain.store) (o : outcome unit) :
  Blockchain.add_block fuel now rnd txs miners s = (o, s') ->
  Blockchain.chain (Blockchain.self s') = Blockchain.chain (Blockchain.self s) \/
  exists last_block miner_pk h b',
    last (Blockchain.chain (Blockchain.self s)) = Some last_block /\
    Block.mine_block fuel
      (Block.init (Z.of_nat (length (Blockchain.chain (Blockchain.self s)))) txs
         (Block.hash last_block) (Blockchain.difficulty (Blockchain.self s))
         (Some miner_pk) now) = Some (h, b') /\
    Blockchain.chain (Blockchain.self s') = Blockchain.chain (Blockchain.self s) ++ [b'].
Proof.
  unfold Blockchain.add_block. intros E.
  unfold Blockchain.bind in E at 1. cbv beta in E.
  destruct (last (Blockchain.chain (Blockchain.self s))) as [last_block|] eqn:Hlast;
    [|mdone E; auto].
  cbv beta iota in E.
  mstep E; [|mdone E; injection E0 as _ <-; auto..].
  injection E0 as Hm <-.
  mstep E; apply valid_fees_pure in E0 as ->; [|mdone E; auto..].
  unfold Blockchain.gets in E.
  unfold Blockchain.bind in E at 1. cbv beta iota in E.
  unfold Blockchain.bind in E at 1. cbv beta iota in E.
  mstep E; apply deref_inv in E0 as [-> Hw]; [|mdone E; auto..].
  mstep E; [|mdone E; injection E0 as _ <-; auto..].
  unfold Blockchain.lift, Blockchain.run_mine_block in E0.
  destruct (Block.mine_block fuel _) as [[h b']|] eqn:Hmine; [|discriminate].
  injection E0 as <- <-.
  right. exists last_block, (Wallet.public_key a1), h, b'.
  split; [reflexivity|]. split; [exact Hmine|].
  unfold Blockchain.chain_append, Blockchain.modify in E.
  unfold Blockchain.bind in E at 1. cbv beta iota in E.
  unfold Blockchain.bind in E at 1. cbv beta iota in E.
  mstep E.
  - apply update_balances_self in E. apply iadd_balance_self in E0.
    rewrite E, E0. reflexivity.
  - mdone E. apply iadd_balance_self in E0. rewrite E0. reflexivity.
  - mdone E. apply iadd_balance_self in E0. rewrite E0. reflexivity.
Qed.

Lemma initialize_chain (fuel : nat) (now : float) (s s' : Blockchain.store) :
  Blockchain.initialize fuel now s = (Return tt, s') ->
  exists h b',
    Block.mine_block fuel
      (Block.init 0 [] (Some "0") (Blockchain.difficulty (Blockchain.self s)) None now)
    = Some (h, b') /\
    s' = {| Blockchain.heap := Blockchain.heap s;
            Blockchain.self :=
              {| Blockchain.chain := Blockchain.chain (Blockchain.self s) ++ [b'];
                 Blockchain.difficulty := Blockchain.difficulty (Blockchain.self s);
                 Blockchain.reward := Blockchain.reward (Blockchain.self s);
                 Blockchain.wallets := Blockchain.wallets (Blockchain.self s) |} |}.
Proof.
  unfold Blockchain.initialize, Blockchain.create_genesis_block, Blockchain.gets.
  intros E. unfold Blockchain.bind in E at 1. cbv beta iota in E.
  mstep E; [|discriminate..].
  unfold Blockchain.lift, Blockchain.run_mine_block in E0.
  destruct (Block.mine_block fuel _) as [[h b']|] eqn:Hmine; [|discriminate].
  injection E0 as <- <-. injection E as <-. eauto.
Qed.

Lemma register_wallet_chain (wallet : Blockchain.ref) (s s' : Blockchain.store)
    (o : outcome unit) :
  Blockchain.register_wallet wallet s = (o, s') ->
  Blockchain.chain (Blockchain.self s') = Blockchain.chain (Blockchain.self s).
Proof.
  unfold Blockchain.register_wallet. intros E.
  mstep E; apply deref_inv in E0 as [-> _]; mdone E; reflexivity.
Qed.

Lemma mined_hash (fuel : nat) (b b' : Block.t) (h : string) :
  Block.mine_block fuel b = Some (h, b') ->
  Block.hash b' = Some (Block.calculate_hash b') /\
  Block.previous_hash b' = Block.previous_hash b.
Proof.
  intros Hm. apply mine_block_inv in Hm as (Hb' & Hh & _).
  split; [rewrite Hb' at 1; simpl; congruence | rewrite Hb'; reflexivity].
Qed.

Lemma linked_snoc (chain : list Block.t) (last_block b : Block.t) :
  linked chain ->
  last chain = Some last_block ->
  Block.hash b = Some (Block.calculate_hash b) ->
  Block.previous_hash b = Block.hash last_block ->
  linked (chain ++ [b]).
Proof.
  intros [Hhash Hlink] Hlast Hb Hprev. split.
  - intros i x Hx. apply lookup_app_Some in Hx as [Hx|[_ Hx]]; [eauto|].
    apply list_lookup_singleton_Some in Hx as [_ <-]. exact Hb.
  - intros i cur prev Hc Hp.
    apply lookup_app_Some in Hc as [Hc|[Hlen Hc]].
    + rewrite lookup_app_l in Hp by (apply lookup_lt_Some in Hc; lia). eauto.
    + apply list_lookup_singleton_Some in Hc as [Hi <-].
      assert (Hi' : i = pred (length chain)) by lia.
      rewrite lookup_app_l in Hp by lia.
      rewrite last_lookup in Hlast. rewrite <- Hi' in Hlast.
      rewrite Hp in Hlast. injection Hlast as ->. exact Hprev.
Qed.

Lemma reachable_linked (s : Blockchain.store) :
  reachable s -> linked (Blockchain.chain (Blockchain.self s)).
Proof.
  induction 1 as [heap d r fuel now s E
                 |s fuel now rnd txs miners o s' _ IH E
                 |s wallet o s' _ IH E
                 |s heap' _ IH].
  - apply initialize_chain in E as (h & b' & Hm & ->). simpl.
    apply mined_hash in Hm as [Hh _]. split.
    + intros [|i] b Hb; simpl in Hb; [|discriminate]. congruence.
    + intros i cur prev Hc. discriminate.
  - apply add_block_chain in E as [->|(lb & pk & h & b' & Hlast & Hm & ->)]; [exact IH|].
    apply mined_hash in Hm as [Hh Hp]. eapply linked_snoc; eauto.
  - apply register_wallet_chain in E. rewrite E. exact IH.
  - exact IH.
Qed.

Lemma is_chain_valid_loop_linked (chain : list Block.t) (range : list nat) :
  linked chain ->
  Forall (fun i => (0 < i < length chain)%nat) range ->
  Blockchain.is_chain_valid_loop chain range = Return true.
Proof.
  intros [Hhash Hlink]. induction 1 as [|i range [Hi0 Hi] _ IH]; [reflexivity|].
  simpl.
  destruct (lookup_lt_is_Some_2 chain i Hi) as [cur Hc].
  destruct (lookup_lt_is_Some_2 chain (i - 1)%nat ltac:(lia)) as [prev Hp].
  rewrite Hc, Hp.
  rewrite (bool_decide_eq_true_2 _ (Hhash _ _ Hc)). simpl.
  replace i with (S (i - 1)) in Hc by lia.
  rewrite (bool_decide_eq_true_2 _ (Hlink _ _ _ Hc Hp)). simpl.
  exact IH.
Qed.

Lemma range_bounds (n : nat) :
  Forall (fun i => (0 < i < n)%nat) (seq 1 (n - 1)).
Proof.
  apply Forall_forall. intros i Hi. apply elem_of_seq in Hi. lia.
Qed.

(** C1: in every ledger reached from [initialize] by calls of [add_block],
    [is_chain_valid] returns true; every block stores the hash that
    [calculate_hash] recomputes, and every block after the first stores the
    hash of the block before it. *)
Theorem reachable_chain_valid (s : Blockchain.store) :
  reachable s ->
  Blockchain.is_chain_valid (Blockchain.self s) = Return true /\
  (forall (i : nat) current,
     Blockchain.chain (Blockchain.self s) !! i = Some current ->
     Block.hash current = Some (Block.calculate_hash current)) /\
  (forall (i : nat) current previous,
     (0 < i)%nat ->
     Blockchain.chain (Blockchain.self s) !! i = Some current ->
     Blockchain.chain (Blockchain.self s) !! (i - 1)%nat = Some previous ->
     Block.previous_hash current = Block.hash previous).
Proof.
  intros Hr. pose proof (reachable_linked s Hr) as Hl.
  split; [|split].
  - apply is_chain_valid_loop_linked; [exact Hl|apply range_bounds].
  - apply Hl.
  - intros i cur prev Hi Hc Hp. destruct Hl as [_ Hlink].
    apply (Hlink (i - 1)%nat); [|exact Hp].
    replace (S (i - 1)) with i by lia. exact Hc.
Qed.

End chain.

(** ** Writing to a stored block *)

Section tampering.
Context `{Library}.

Lemma is_chain_valid_loop_rounds (chain : list Block.t) (range : list nat) :
  Forall (fun i => (0 < i < length chain)%nat) range ->
  Blockchain.is_chain_valid_loop chain range = Return (forallb (round_ok chain) range).
Proof.
  induction 1 as [|i range [Hi0 Hi] _ IH]; [reflexivity|].
  simpl. unfold round_ok at 1.
  destruct (lookup_lt_is_Some_2 chain i Hi) as [cur ->].
  destruct (lookup_lt_is_Some_2 chain (i - 1)%nat ltac:(lia)) as [prev ->].
  destruct (bool_decide (Block.hash cur = _)); simpl; [|reflexivity].
  destruct (bool_decide (Block.previous_hash cur = _)); simpl; [exact IH|reflexivity].
Qed.

Lemma is_chain_valid_rounds (self : Blockchain.t) :
  Blockchain.is_chain_valid self
  = Return (forallb (round_ok (Blockchain.chain self))
              (seq 1 (length (Blockchain.chain self) - 1))).
Proof. apply is_chain_valid_loop_rounds, range_bounds. Qed.


Lemma round_ok_inv (chain : list Block.t) (i : nat) :
  round_ok chain i = true ->
  exists current previous,
    chain !! i = Some current /\ chain !! (i - 1)%nat = Some previous /\
    Block.hash current = Some (Block.calculate_hash current) /\
    Block.previous_hash current = Block.hash previous.
Proof.
  unfold round_ok. destruct (chain !! i) as [cur|]; [|discriminate].
  destruct (chain !! (i - 1)%nat) as [prev|]; [|discriminate].
  intros E. apply andb_true_iff in E as [E1 E2].
  apply bool_decide_eq_true_1 in E1, E2. eauto 6.
Qed.





Lemma calculate_hash_write_difficulty (b : Block.t) (d : Z) :
  Block.calculate_hash (write_block (SetDifficulty d) b) = Block.calculate_hash b.
Proof. destruct b. reflexivity. Qed.

End tampering.

(** ** Hashed fields, when the hash has no collisions *)

Section collisions.
Context `{Library}.




End collisions.

(** ** What [is_chain_valid] notices of a write *)

Section detection.
Context `{Library}.


(** Two lists read the same through [to_dict] exactly when they agree on
    every field but the signature, [to_dict] confusing no two values. *)
Lemma map_to_dict_fields (txs txs' : list Transaction.t) :
  to_dict_injective ->
  map Transaction.to_dict txs = map Transaction.to_dict txs' <->
  Forall2 (fun tx tx' =>
             Transaction.sender_public_key tx = Transaction.sender_public_key tx' /\
             Transaction.recipient tx = Transaction.recipient tx' /\
             Transaction.amount tx = Transaction.amount tx' /\
             Transaction.fee tx = Transaction.fee tx' /\
             Transaction.timestamp tx = Transaction.timestamp tx') txs txs'.
Proof.
  intros Hinj. revert txs'. induction txs as [|tx txs IH]; intros [|tx' txs']; simpl;
    split; intros E; try discriminate; try reflexivity;
    try (inversion E; fail); try constructor.
  - injection E as E1 E2. apply Hinj, E1.
  - injection E as E1 E2. apply IH, E2.
  - inversion E as [|? ? ? ? (E1 & E2 & E3 & E4 & E5) Hrest]; subst. f_equal.
    + unfold Transaction.to_dict. congruence.
    + apply IH, Hrest.
Qed.


End detection.

(** ** The builtins [sum] and [round] *)

Lemma sum_plain_added (fees : list float) :
  forall total : float,
    sum_plain fees total = fold_left (fun total fee => (total + fee)%float) fees total.
Proof. induction fees as [|fee fees IH]; intros total; [reflexivity|apply IH]. Qed.

Lemma sum_neumaier_added (fees : list float) :
  forall total lost : float,
    sum_neumaier fees total lost
    = let '(total', lost') := fold_left Notions.add_compensated fees (total, lost) in
      if negb (is_zero lost') && is_finite lost' then (total' + lost')%float else total'.
Proof.
  induction fees as [|fee fees IH]; intros total lost; [reflexivity|].
  simpl. rewrite IH. reflexivity.
Qed.

(** [sum] on floats adds from left to right, starting from 0; the
    compensated [sum] adds the rounding errors back at the end. *)
Lemma sum_added_up (fees : list float) :
  sum false fees = Notions.added_up fees /\
  sum true fees = Notions.added_up_compensated fees.
Proof.
  destruct fees as [|fee fees]; [split; reflexivity|]. split.
  - apply sum_plain_added.
  - apply sum_neumaier_added.
Qed.

Lemma div_half_even_nearest (num den : Z) :
  0 <= num -> 0 < den ->
  0 <= div_half_even num den /\
  Notions.nearest_integer num den (div_half_even num den).
Proof.
  intros Hnum Hden. unfold div_half_even, Notions.nearest_integer.
  pose proof (Z.div_mod num den ltac:(lia)) as Hdm.
  pose proof (Z.mod_pos_bound num den Hden) as Hr.
  pose proof (Z.div_pos num den Hnum Hden) as Hq.
  set (q := num / den) in *. set (r := num mod den) in *.
  assert (Hq0 : num - q * den = r) by lia.
  assert (Hq1 : num - (q + 1) * den = r - den) by lia.
  destruct (Z.compare_spec (2 * r) den) as [E|E|E].
  - destruct (Z.even q) eqn:Hev.
    + rewrite Hq0. split; [lia|]. split; [lia|]. intros _. exact Hev.
    + rewrite Hq1. split; [lia|]. split; [lia|]. intros _.
      rewrite Z.even_add, Hev. reflexivity.
  - rewrite Hq0. split; [lia|]. split; lia.
  - rewrite Hq1. split; [lia|]. split; lia.
Qed.

(** The integer nearest to a fraction is one integer. *)
Lemma nearest_integer_unique (num den k k' : Z) :
  0 < den ->
  Notions.nearest_integer num den k -> Notions.nearest_integer num den k' -> k = k'.
Proof.
  intros Hden [Hk Hek] [Hk' Hek'].
  assert (Hclose : k' = k \/ k' = k + 1 \/ k = k' + 1) by nia.
  destruct Hclose as [->|[->| ->]]; [reflexivity| |].
  - assert (E : 2 * Z.abs (num - k * den) = den) by nia.
    assert (E' : 2 * Z.abs (num - (k + 1) * den) = den) by nia.
    specialize (Hek E). specialize (Hek' E').
    rewrite Z.even_add, Hek in Hek'. discriminate.
  - assert (E : 2 * Z.abs (num - k' * den) = den) by nia.
    assert (E' : 2 * Z.abs (num - (k' + 1) * den) = den) by nia.
    specialize (Hek E'). specialize (Hek' E).
    rewrite Z.even_add, Hek' in Hek. discriminate.
Qed.

(** [round(x, ndigits)] is [x] rounded to [ndigits] fractional digits. *)
Lemma round_rounded_to (x : float) (ndigits : Z) :
  0 <= ndigits -> Notions.rounded_to x ndigits (round x ndigits).
Proof.
  intros Hn. unfold Notions.rounded_to, round.
  destruct (Prim2SF x) as [s|s| |s m e]; try reflexivity.
  destruct (0 <=? e) eqn:He; [reflexivity|]. apply Z.leb_gt in He.
  destruct (div_half_even_nearest (Zpos m * 10 ^ ndigits) (2 ^ (- e))) as [Hk Hnear].
  - apply Z.mul_nonneg_nonneg; [lia|]. apply Z.pow_nonneg. lia.
  - apply Z.pow_pos_nonneg; lia.
  - exists (div_half_even (Z.pos m * 10 ^ ndigits) (2 ^ (- e))).
    split; [exact Hk|]. split; [exact Hnear|]. unfold Notions.decimal.
    destruct (div_half_even (Z.pos m * 10 ^ ndigits) (2 ^ (- e))); reflexivity.
Qed.

(** Rounding to [ndigits] fractional digits has one result. *)
Lemma rounded_to_unique (x : float) (ndigits : Z) (y y' : float) :
  Notions.rounded_to x ndigits y -> Notions.rounded_to x ndigits y' -> y = y'.
Proof.
  unfold Notions.rounded_to. destruct (Prim2SF x) as [s|s| |s m e]; try congruence.
  destruct (0 <=? e) eqn:He; [congruence|]. apply Z.leb_gt in He.
  intros (k & _ & Hk & ->) (k' & _ & Hk' & ->).
  assert (Hden : 0 < 2 ^ (- e)) by (apply Z.pow_pos_nonneg; lia).
  rewrite (nearest_integer_unique _ _ k k' Hden Hk Hk'). reflexivity.
Qed.

(** ** Signatures *)

Section signatures.
Context `{Library}.

Lemma sign_transaction_canonical (w : Wallet.t) (data : string) (k : Z) :
  dss_canonical ->
  Wallet.sign_transaction w data k = ecdsa_sign (Wallet.private_key w) (encode data) k.
Proof. intros Hc. unfold Wallet.sign_transaction. apply Hc. Qed.

Lemma constructed_signature (sender_wallet : Wallet.t) (recipient_public_key : PublicKey)
    (amount now : float) (k : Z) (w : Wallet.t) :
  dss_canonical ->
  Transaction.is_valid
    (Transaction.init sender_wallet recipient_public_key amount now k) (Some w)
  = Return
      (match ecdsa_verify (Wallet.public_key w)
               (ecdsa_sign (Wallet.private_key sender_wallet)
                  (encode (json_dumps
                             (JStr (Transaction.to_dict
                                      (Transaction.init sender_wallet recipient_public_key
                                         amount now k))) None true)) k)
               (encode (json_dumps
                          (JStr (Transaction.to_dict
                                   (Transaction.init sender_wallet recipient_public_key
                                      amount now k))) None true)) with
       | None => true
       | Some _ => false
       end).
Proof.
  intros Hcan.
  unfold Transaction.is_valid, Transaction.init, Wallet.verify_signature.
  cbn [Transaction.signature]. unfold Transaction.sign_transaction_of, Transaction.to_dict.
  cbn [Transaction.sender_public_key Transaction.recipient Transaction.amount
       Transaction.fee Transaction.timestamp].
  rewrite (sign_transaction_canonical _ _ _ Hcan). reflexivity.
Qed.

Lemma constructed_valid_for_signer (sender_wallet : Wallet.t)
    (recipient_public_key : PublicKey) (amount now : float) (k : Z) :
  ecdsa_accepts_signer ->
  dss_canonical ->
  keypair sender_wallet ->
  Transaction.is_valid
    (Transaction.init sender_wallet recipient_public_key amount now k)
    (Some sender_wallet) = Return true.
Proof.
  intros Hacc Hcan Hkey. rewrite constructed_signature by exact Hcan.
  rewrite Hkey, Hacc. reflexivity.
Qed.

(** C4: a transaction made by the constructor passes [is_valid] against
    the wallet that signed it and fails it against a wallet with any other
    key, ECDSA accepting a signature under the signer's key only. *)
Theorem constructed_transaction_valid (sender_wallet other : Wallet.t)
    (recipient_public_key : PublicKey) (amount now : float) (k : Z) :
  ecdsa_accepts_signer ->
  ecdsa_rejects_other_keys ->
  dss_canonical ->
  keypair sender_wallet ->
  Transaction.is_valid
    (Transaction.init sender_wallet recipient_public_key amount now k)
    (Some sender_wallet) = Return true /\
  (Wallet.public_key other <> Wallet.public_key sender_wallet ->
   Transaction.is_valid
     (Transaction.init sender_wallet recipient_public_key amount now k)
     (Some other) = Return false).
Proof.
  intros Hacc Hrej Hcan Hkey. split.
  - apply constructed_valid_for_signer; assumption.
  - intros Hne. rewrite constructed_signature by exact Hcan. f_equal.
    destruct (ecdsa_verify (Wallet.public_key other) _ _) eqn:E; [reflexivity|].
    exfalso. revert E. apply Hrej. rewrite <- Hkey. exact Hne.
Qed.

End signatures.

(** ** What [add_block] does when it returns, and when a sender is unknown *)

Section add_block.
Context `{Library}.

(** The store once the block is appended and the miner is paid. *)
Lemma add_block_return (fuel : nat) (now : float) (rnd : nat)
    (txs : list Transaction.t) (miners : list Blockchain.ref)
    (s s' : Blockchain.store) :
  Blockchain.add_block fuel now rnd txs miners s = (Return tt, s') ->
  exists last_block miner fees miner_wallet h b',
    last (Blockchain.chain (Blockchain.self s)) = Some last_block /\
    Blockchain.random_choice rnd miners = Return miner /\
    Blockchain.valid_fees txs s = (Return fees, s) /\
    Blockchain.heap s !! miner = Some miner_wallet /\
    Block.mine_block fuel
      (Block.init (Z.of_nat (length (Blockchain.chain (Blockchain.self s)))) txs
         (Block.hash last_block) (Blockchain.difficulty (Blockchain.self s))
         (Some (Wallet.public_key miner_wallet)) now) = Some (h, b') /\
    Blockchain.update_balances txs
      {| Blockchain.heap :=
           alter (fun w => Wallet.set_balance w
                             (Wallet.balance miner_wallet
                              + (Blockchain.reward (Blockchain.self s)
                                 + sum sum_compensated fees))%float)
             miner (Blockchain.heap s);
         Blockchain.self :=
           {| Blockchain.chain := Blockchain.chain (Blockchain.self s) ++ [b'];
              Blockchain.difficulty := Blockchain.difficulty (Blockchain.self s);
              Blockchain.reward := Blockchain.reward (Blockchain.self s);
              Blockchain.wallets := Blockchain.wallets (Blockchain.self s) |} |}
    = (Return tt, s').
Proof.
  unfold Blockchain.add_block. intros E.
  unfold Blockchain.bind in E at 1. cbv beta in E.
  destruct (last (Blockchain.chain (Blockchain.self s))) as [last_block|] eqn:Hlast;
    [|discriminate].
  cbv beta iota in E.
  mstep E; [|discriminate..].
  injection E0 as Hm <-.
  mstep E; [|discriminate..].
  pose proof (valid_fees_pure _ _ _ _ E0) as ->.
  unfold Blockchain.gets in E.
  unfold Blockchain.bind in E at 1. cbv beta iota in E.
  unfold Blockchain.bind in E at 1. cbv beta iota in E.
  mstep E; apply deref_inv in E1 as [-> Hw]; [|discriminate..].
  mstep E; [|discriminate..].
  unfold Blockchain.lift, Blockchain.run_mine_block in E1.
  destruct (Block.mine_block fuel _) as [[h b']|] eqn:Hmine; [|discriminate].
  injection E1 as <- <-.
  unfold Blockchain.chain_append, Blockchain.modify in E.
  unfold Blockchain.bind in E at 1. cbv beta iota in E.
  unfold Blockchain.bind in E at 1. cbv beta iota in E.
  mstep E; [|discriminate..].
  unfold Blockchain.iadd_balance in E1. mstep E1; [|discriminate..].
  apply deref_inv in E2 as [-> Hw']. simpl in Hw'.
  assert (a3 = a1) as -> by congruence.
  unfold Blockchain.store_balance, Blockchain.modify in E1. injection E1 as <-.
  exists last_block, a, a0, a1, h, b'. simpl in E. subst s0. auto 10.
Qed.

Lemma same_wallets_refl (s : Blockchain.store) : same_wallets s s.
Proof.
  split; [reflexivity|]. intros r. destruct (Blockchain.heap s !! r); [|exact I].
  repeat split.
Qed.

Lemma is_valid_same_wallet (tx : Transaction.t) (w w' : Wallet.t) :
  same_wallet w w' ->
  Transaction.is_valid tx (Some w') = Transaction.is_valid tx (Some w).
Proof.
  intros (_ & _ & Hpk). unfold Transaction.is_valid, Wallet.verify_signature.
  rewrite Hpk. reflexivity.
Qed.

(** The check of [add_block] answers as [confirms] says, in any store
    that differs from [s] in balances only; an unknown sender makes it
    raise. *)
Lemma is_valid_sender_confirms (s t t' : Blockchain.store) (tx : Transaction.t) (v : bool) :
  same_wallets s t ->
  Blockchain.is_valid_sender tx t = (Return v, t') ->
  v = confirms s tx /\ t' = t /\
  is_Some (Blockchain.wallets (Blockchain.self s)
           !! public_bytes (Transaction.sender_public_key tx)).
Proof.
  intros [Hreg Hheap] E. pose proof (is_valid_sender_pure _ _ _ _ E) as ->.
  unfold Blockchain.is_valid_sender, Blockchain.find_wallet_by_public_key,
    Blockchain.gets, Blockchain.deref_opt, Blockchain.lift, Blockchain.ret,
    Blockchain.bind, Blockchain.deref in E.
  unfold confirms. rewrite Hreg in E.
  destruct (Blockchain.wallets (Blockchain.self s) !! _) as [r|]; [|discriminate].
  specialize (Hheap r).
  destruct (Blockchain.heap t !! r) as [w'|]; [|discriminate].
  destruct (Blockchain.heap s !! r) as [w|]; [|contradiction].
  rewrite (is_valid_same_wallet tx w w' Hheap) in E.
  apply (f_equal fst) in E. cbn [fst] in E. rewrite E. eauto.
Qed.

Lemma valid_fees_confirms (txs : list Transaction.t) :
  forall (s s' : Blockchain.store) (fees : list float),
    Blockchain.valid_fees txs s = (Return fees, s') ->
    fees = map Transaction.fee (List.filter (confirms s) txs) /\
    Forall (fun tx => is_Some (Blockchain.wallets (Blockchain.self s)
                               !! public_bytes (Transaction.sender_public_key tx))) txs.
Proof.
  induction txs as [|tx txs IH]; intros s s' fees E; simpl in E.
  - injection E as <- _. split; [reflexivity|constructor].
  - mstep E; [|discriminate..].
    apply (is_valid_sender_confirms s) in E0 as (-> & -> & Hres);
      [|apply same_wallets_refl].
    mstep E; [|discriminate..].
    apply IH in E0 as [-> Hall]. injection E as <- _. split; [|constructor; assumption].
    simpl. destruct (confirms s tx); reflexivity.
Qed.

Lemma store_balance_lookup (r l : Blockchain.ref) (b : float) (t : Blockchain.store)
    (w : Wallet.t) :
  Blockchain.heap t !! r = Some w ->
  Blockchain.heap
    {| Blockchain.heap := alter (fun w => Wallet.set_balance w b) r (Blockchain.heap t);
       Blockchain.self := Blockchain.self t |} !! l
  = if bool_decide (l = r) then Some (Wallet.set_balance w b) else Blockchain.heap t !! l.
Proof.
  intros Hw. simpl. rewrite lookup_alter. case_decide as Hd.
  - subst. rewrite bool_decide_eq_true_2 by reflexivity. rewrite Hw. reflexivity.
  - rewrite bool_decide_eq_false_2 by congruence. reflexivity.
Qed.

Lemma iadd_balance_return (r : Blockchain.ref) (x : float) (t t' : Blockchain.store) :
  Blockchain.iadd_balance r x t = (Return tt, t') ->
  exists w,
    Blockchain.heap t !! r = Some w /\
    t' = {| Blockchain.heap :=
              alter (fun w' => Wallet.set_balance w' (Wallet.balance w + x)%float) r
                (Blockchain.heap t);
            Blockchain.self := Blockchain.self t |}.
Proof.
  unfold Blockchain.iadd_balance. intros E. mstep E; [|discriminate..].
  apply deref_inv in E0 as [-> Hw]. injection E as <-. eauto.
Qed.

Lemma isub_balance_return (r : Blockchain.ref) (x : float) (t t' : Blockchain.store) :
  Blockchain.isub_balance r x t = (Return tt, t') ->
  exists w,
    Blockchain.heap t !! r = Some w /\
    t' = {| Blockchain.heap :=
              alter (fun w' => Wallet.set_balance w' (Wallet.balance w - x)%float) r
                (Blockchain.heap t);
            Blockchain.self := Blockchain.self t |}.
Proof.
  unfold Blockchain.isub_balance. intros E. mstep E; [|discriminate..].
  apply deref_inv in E0 as [-> Hw]. injection E as <-. eauto.
Qed.

Lemma rebalanced_write (t : Blockchain.store) (r : Blockchain.ref) (w : Wallet.t)
    (b : float) :
  Blockchain.heap t !! r = Some w ->
  rebalanced t
    {| Blockchain.heap := alter (fun w' => Wallet.set_balance w' b) r (Blockchain.heap t);
       Blockchain.self := Blockchain.self t |}
    (fun l x => if bool_decide (l = r) then b else x).
Proof.
  intros Hw. split; [reflexivity|]. intros l.
  rewrite (store_balance_lookup r l b t w Hw). case_bool_decide as Hd.
  - subst l. rewrite Hw. repeat split.
  - destruct (Blockchain.heap t !! l); [|exact I]. repeat split.
Qed.

Lemma rebalanced_trans (t1 t2 t3 : Blockchain.store)
    (f g : Blockchain.ref -> float -> float) :
  rebalanced t1 t2 f -> rebalanced t2 t3 g ->
  rebalanced t1 t3 (fun l x => g l (f l x)).
Proof.
  intros [Hs1 H1] [Hs2 H2]. split; [congruence|]. intros l.
  specialize (H1 l). specialize (H2 l).
  destruct (Blockchain.heap t1 !! l) as [w1|], (Blockchain.heap t2 !! l) as [w2|],
    (Blockchain.heap t3 !! l) as [w3|]; try contradiction; try exact I.
  destruct H1 as [(Ha & Hb & Hc) Hf], H2 as [(Ha' & Hb' & Hc') Hg].
  split; [repeat split; congruence|]. rewrite Hg, Hf. reflexivity.
Qed.

Lemma rebalanced_ext (t t' : Blockchain.store) (f g : Blockchain.ref -> float -> float) :
  rebalanced t t' f ->
  (forall l w, Blockchain.heap t !! l = Some w -> f l (Wallet.balance w) = g l (Wallet.balance w)) ->
  rebalanced t t' g.
Proof.
  intros [Hs Hl] Hfg. split; [exact Hs|]. intros l. specialize (Hl l).
  destruct (Blockchain.heap t !! l) as [w|] eqn:Hw; [|exact Hl].
  destruct (Blockchain.heap t' !! l); [|exact Hl].
  destruct Hl as [Hsw Hb]. split; [exact Hsw|]. rewrite Hb. apply (Hfg l w Hw).
Qed.

Lemma rebalanced_same_wallets (s t t' : Blockchain.store)
    (f : Blockchain.ref -> float -> float) :
  same_wallets s t -> rebalanced t t' f -> same_wallets s t'.
Proof.
  intros [Hreg Hheap] [Hself Hl]. split; [rewrite Hself; exact Hreg|].
  intros r. specialize (Hheap r). specialize (Hl r).
  destruct (Blockchain.heap s !! r), (Blockchain.heap t !! r),
    (Blockchain.heap t' !! r); try contradiction; try exact I.
  destruct Hheap as (Ha & Hb & Hc), Hl as [(Ha' & Hb' & Hc') _].
  repeat split; congruence.
Qed.

(** One round of the loop under "Update balances" settles the transaction
    on every wallet. *)
Lemma update_balance_settles (s t t' : Blockchain.store) (tx : Transaction.t) :
  same_wallets s t ->
  Blockchain.update_balance tx t = (Return tt, t') ->
  rebalanced t t' (fun l b => settle_one s l b tx).
Proof.
  intros Hsame E. unfold Blockchain.update_balance in E.
  mstep E; [|discriminate..].
  apply (is_valid_sender_confirms s) in E0 as (-> & -> & [rs Hrs]); [|exact Hsame].
  unfold settle_one. destruct (confirms s tx).
  2:{ injection E as <-. split; [reflexivity|]. intros l.
      destruct (Blockchain.heap t !! l); [|exact I]. repeat split. }
  destruct Hsame as [Hreg _].
  unfold Blockchain.find_wallet_by_public_key, Blockchain.gets in E.
  unfold Blockchain.bind in E at 1. cbv beta iota in E.
  unfold Blockchain.bind in E at 1. cbv beta iota in E.
  rewrite Hreg, Hrs in E. unfold registered_as. rewrite Hrs.
  mstep E; [|discriminate..]. destruct a.
  apply isub_balance_return in E0 as (ws & Hws & ->).
  pose proof (rebalanced_write t rs ws
                (Wallet.balance ws - (Transaction.amount tx + Transaction.fee tx))%float
                Hws) as R1.
  destruct (Blockchain.wallets (Blockchain.self s)
            !! public_bytes (Transaction.recipient tx)) as [rr|] eqn:Hrr.
  - apply iadd_balance_return in E as (wr & Hwr & ->).
    pose proof (rebalanced_write _ rr wr
                  (Wallet.balance wr + Transaction.amount tx)%float Hwr) as R2.
    eapply rebalanced_ext; [exact (rebalanced_trans _ _ _ _ _ R1 R2)|].
    intros l w Hl. cbv beta.
    rewrite (store_balance_lookup rs rr _ t ws Hws) in Hwr.
    destruct (bool_decide_reflect (l = rr)) as [->|Hlr].
    + rewrite (bool_decide_eq_true_2 (Some rr = Some rr)) by reflexivity.
      destruct (bool_decide_reflect (rr = rs)) as [->|Hne].
      * rewrite (bool_decide_eq_true_2 (Some rs = Some rs)) by reflexivity.
        injection Hwr as <-. simpl. congruence.
      * rewrite (bool_decide_eq_false_2 (Some rs = Some rr)) by congruence.
        congruence.
    + rewrite (bool_decide_eq_false_2 (Some rr = Some l)) by congruence.
      destruct (bool_decide_reflect (l = rs)) as [->|Hne].
      * rewrite (bool_decide_eq_true_2 (Some rs = Some rs)) by reflexivity.
        congruence.
      * rewrite (bool_decide_eq_false_2 (Some rs = Some l)) by congruence.
        reflexivity.
  - injection E as <-.
    eapply rebalanced_ext; [exact R1|].
    intros l w Hl. cbv beta.
    rewrite (bool_decide_eq_false_2 (None = Some l)) by discriminate.
    destruct (bool_decide_reflect (l = rs)) as [->|Hne].
    + rewrite (bool_decide_eq_true_2 (Some rs = Some rs)) by reflexivity. congruence.
    + rewrite (bool_decide_eq_false_2 (Some rs = Some l)) by congruence. reflexivity.
Qed.

Lemma update_balances_settles (s : Blockchain.store) (txs : list Transaction.t) :
  forall t t' : Blockchain.store,
    same_wallets s t ->
    Blockchain.update_balances txs t = (Return tt, t') ->
    rebalanced t t' (fun l b => settle s l b txs).
Proof.
  induction txs as [|tx txs IH]; intros t t' Hsame E; simpl in E.
  - injection E as <-. split; [reflexivity|]. intros l.
    destruct (Blockchain.heap t !! l); [|exact I]. repeat split.
  - mstep E; [|discriminate..]. destruct a.
    pose proof (update_balance_settles s t s0 tx Hsame E0) as R1.
    pose proof (IH s0 t' (rebalanced_same_wallets _ _ _ _ Hsame R1) E) as R2.
    exact (rebalanced_trans _ _ _ _ _ R1 R2).
Qed.

(** [total_fees] is what [sum] makes of the fees of the transactions that
    pass. *)
Lemma sum_total_fees (s : Blockchain.store) (txs : list Transaction.t) :
  sum sum_compensated (map Transaction.fee (List.filter (confirms s) txs))
  = total_fees s txs.
Proof.
  unfold total_fees. destruct (sum_added_up (map Transaction.fee (List.filter (confirms s) txs)))
    as [Hp Hc].
  destruct sum_compensated; assumption.
Qed.

(** What [add_block] does to the wallets when it returns. *)
Lemma add_block_rebalanced (fuel : nat) (now : float) (rnd : nat)
    (txs : list Transaction.t) (miners : list Blockchain.ref)
    (s s' : Blockchain.store) :
  Blockchain.add_block fuel now rnd txs miners s = (Return tt, s') ->
  exists miner,
    Blockchain.random_choice rnd miners = Return miner /\
    rebalanced s
      {| Blockchain.heap := Blockchain.heap s'; Blockchain.self := Blockchain.self s |}
      (balance_after s miner txs).
Proof.
  intros E. apply add_block_return in E
    as (lb & miner & fees & mw & h & b' & _ & Hm & Hf & Hmw & _ & E).
  exists miner. split; [exact Hm|].
  apply valid_fees_confirms in Hf as [-> _].
  set (s1 := {| Blockchain.heap := alter _ miner (Blockchain.heap s);
                Blockchain.self := _ |}) in E.
  assert (R1 : rebalanced s
                 {| Blockchain.heap := Blockchain.heap s1; Blockchain.self := Blockchain.self s |}
                 (fun l b => pay_miner s miner l b txs)).
  { eapply rebalanced_ext; [exact (rebalanced_write s miner mw _ Hmw)|].
    intros l w Hl. cbv beta. unfold pay_miner. rewrite <- sum_total_fees.
    case_bool_decide as Hd; [|reflexivity]. subst l. congruence. }
  assert (Hreg : Blockchain.wallets (Blockchain.self s1)
                 = Blockchain.wallets (Blockchain.self s)) by reflexivity.
  clearbody s1.
  assert (Hsame : same_wallets s s1).
  { destruct R1 as [_ R1]. split; [exact Hreg|]. intros r. specialize (R1 r).
    cbn [Blockchain.heap] in R1. destruct (Blockchain.heap s !! r), (Blockchain.heap s1 !! r);
      try contradiction; try exact I. apply R1. }
  pose proof (update_balances_settles s txs s1 s' Hsame E) as [_ R2].
  destruct R1 as [_ R1]. split; [reflexivity|]. intros l.
  specialize (R1 l). specialize (R2 l). cbn [Blockchain.heap] in *.
  destruct (Blockchain.heap s !! l) as [w|], (Blockchain.heap s1 !! l) as [w1|],
    (Blockchain.heap s' !! l) as [w'|]; try contradiction; try exact I.
  destruct R1 as [(Ha & Hb & Hc) Hf], R2 as [(Ha' & Hb' & Hc') Hg].
  split; [repeat split; congruence|]. unfold balance_after. rewrite Hg, Hf. reflexivity.
Qed.

(** C6: when [add_block] returns, the wallet drawn as miner has been
    credited [reward + total_fees], where [total_fees] is the fees of the
    transactions that pass [is_valid] against the wallet registered for
    their sender, added up from left to right starting from 0 (with the
    rounding errors added back where the interpreter's [sum] compensates);
    then, for each such transaction in turn, the wallet registered for the
    sender has been debited [amount + fee] and the one registered for the
    recipient, if any, credited [amount].  No other balance and no other
    attribute of a wallet has changed. *)
Theorem add_block_balances (fuel : nat) (now : float) (rnd : nat)
    (txs : list Transaction.t) (miners : list Blockchain.ref)
    (s s' : Blockchain.store) :
  Blockchain.add_block fuel now rnd txs miners s = (Return tt, s') ->
  exists miner,
    Blockchain.random_choice rnd miners = Return miner /\
    forall l : Blockchain.ref,
      match Blockchain.heap s !! l, Blockchain.heap s' !! l with
      | Some w, Some w' =>
          same_wallet w w' /\
          Wallet.balance w'
          = settle s l (pay_miner s miner l (Wallet.balance w) txs) txs
      | None, None => True
      | _, _ => False
      end.
Proof.
  intros E. apply add_block_rebalanced in E as (miner & Hm & _ & Hbal).
  exists miner. split; [exact Hm|]. exact Hbal.
Qed.


Lemma add_block_self (fuel : nat) (now : float) (rnd : nat)
    (txs : list Transaction.t) (miners : list Blockchain.ref)
    (s s' : Blockchain.store) :
  Blockchain.add_block fuel now rnd txs miners s = (Return tt, s') ->
  Blockchain.wallets (Blockchain.self s') = Blockchain.wallets (Blockchain.self s) /\
  Blockchain.difficulty (Blockchain.self s') = Blockchain.difficulty (Blockchain.self s) /\
  Blockchain.reward (Blockchain.self s') = Blockchain.reward (Blockchain.self s) /\
  length (Blockchain.chain (Blockchain.self s'))
  = S (length (Blockchain.chain (Blockchain.self s))).
Proof.
  intros E. apply add_block_return in E
    as (lb & miner & fees & mw & h & b' & _ & _ & _ & _ & _ & E).
  apply update_balances_self in E. rewrite E. simpl.
  rewrite length_app. simpl. repeat split. lia.
Qed.

Lemma random_choice_nonempty {A : Type} (rnd : nat) (seq : list A) :
  seq <> [] -> exists x, Blockchain.random_choice rnd seq = Return x /\ x ∈ seq.
Proof.
  intros Hne. unfold Blockchain.random_choice.
  assert (Hlt : (rnd mod length seq < length seq)%nat).
  { apply Nat.mod_upper_bound. destruct seq; [contradiction|discriminate]. }
  destruct (lookup_lt_is_Some_2 seq _ Hlt) as [x Hx]. rewrite Hx.
  exists x. split; [reflexivity|]. eapply list_elem_of_lookup_2, Hx.
Qed.

Lemma is_valid_sender_known (s : Blockchain.store) (tx : Transaction.t)
    (r : Blockchain.ref) (w : Wallet.t) :
  Blockchain.wallets (Blockchain.self s)
  !! public_bytes (Transaction.sender_public_key tx) = Some r ->
  Blockchain.heap s !! r = Some w ->
  Blockchain.is_valid_sender tx s = (Transaction.is_valid tx (Some w), s).
Proof.
  intros Hr Hw.
  unfold Blockchain.is_valid_sender, Blockchain.find_wallet_by_public_key,
    Blockchain.gets, Blockchain.deref_opt, Blockchain.lift, Blockchain.ret,
    Blockchain.bind, Blockchain.deref.
  rewrite Hr, Hw. reflexivity.
Qed.

Lemma is_valid_sender_unknown (s : Blockchain.store) (tx : Transaction.t) :
  Blockchain.wallets (Blockchain.self s)
  !! public_bytes (Transaction.sender_public_key tx) = None ->
  Blockchain.is_valid_sender tx s = (Raise AttributeError, s).
Proof.
  intros Hr.
  unfold Blockchain.is_valid_sender, Blockchain.find_wallet_by_public_key,
    Blockchain.gets, Blockchain.deref_opt, Blockchain.lift, Blockchain.ret,
    Blockchain.bind.
  rewrite Hr. reflexivity.
Qed.

Lemma valid_fees_unknown_sender (s : Blockchain.store) (tx : Transaction.t)
    (post : list Transaction.t) :
  forall pre : list Transaction.t,
    Forall (fun t => exists r,
                Blockchain.wallets (Blockchain.self s)
                !! public_bytes (Transaction.sender_public_key t) = Some r /\
                is_Some (Blockchain.heap s !! r)) pre ->
    Blockchain.wallets (Blockchain.self s)
    !! public_bytes (Transaction.sender_public_key tx) = None ->
    Blockchain.valid_fees (pre ++ tx :: post) s = (Raise AttributeError, s).
Proof.
  intros pre Hpre Hnone. induction Hpre as [|t pre (r & Hr & [w Hw]) _ IH]; simpl.
  - unfold Blockchain.bind at 1. rewrite (is_valid_sender_unknown s tx Hnone).
    reflexivity.
  - unfold Blockchain.bind at 1. rewrite (is_valid_sender_known s t r w Hr Hw).
    unfold Transaction.is_valid. unfold Blockchain.bind at 1. rewrite IH. reflexivity.
Qed.

(** C3, as the code has it: a transaction whose sender is not in the
    registry makes [add_block] raise [AttributeError] before a block is
    built; the store is left as it was. *)
Theorem add_block_unknown_sender (fuel : nat) (now : float) (rnd : nat)
    (pre post : list Transaction.t) (tx : Transaction.t)
    (miners : list Blockchain.ref) (s : Blockchain.store) :
  Blockchain.chain (Blockchain.self s) <> [] ->
  miners <> [] ->
  Forall (fun t => exists r,
              Blockchain.wallets (Blockchain.self s)
              !! public_bytes (Transaction.sender_public_key t) = Some r /\
              is_Some (Blockchain.heap s !! r)) pre ->
  Blockchain.wallets (Blockchain.self s)
  !! public_bytes (Transaction.sender_public_key tx) = None ->
  Blockchain.add_block fuel now rnd (pre ++ tx :: post) miners s
  = (Raise AttributeError, s).
Proof.
  intros Hchain Hminers Hpre Hnone. unfold Blockchain.add_block.
  unfold Blockchain.bind at 1.
  destruct (last (Blockchain.chain (Blockchain.self s))) as [lb|] eqn:Hlast.
  2:{ apply last_None in Hlast. contradiction. }
  destruct (random_choice_nonempty rnd miners Hminers) as (m & Hm & _).
  unfold Blockchain.bind at 1, Blockchain.lift. rewrite Hm.
  unfold Blockchain.bind at 1.
  rewrite (valid_fees_unknown_sender s tx post pre Hpre Hnone). reflexivity.
Qed.

(** *** [add_block] returns when mining does *)

Lemma same_wallets_live (s t : Blockchain.store) (r : Blockchain.ref) :
  same_wallets s t -> is_Some (Blockchain.heap s !! r) -> is_Some (Blockchain.heap t !! r).
Proof.
  intros [_ Hh] [w Hw]. specialize (Hh r). rewrite Hw in Hh.
  destruct (Blockchain.heap t !! r); [eauto|contradiction].
Qed.

Lemma update_balance_returns (s t : Blockchain.store) (tx : Transaction.t) :
  same_wallets s t -> resolvable s tx ->
  exists t', Blockchain.update_balance tx t = (Return tt, t').
Proof.
  intros Hsame [(rs & Hrs & Hlive) Hrcp].
  destruct (same_wallets_live s t rs Hsame Hlive) as [ws Hws].
  pose proof Hsame as [Hreg _].
  unfold Blockchain.update_balance. unfold Blockchain.bind at 1.
  rewrite (is_valid_sender_known t tx rs ws) by (rewrite ?Hreg; assumption).
  unfold Transaction.is_valid. destruct (Wallet.verify_signature _ _ _); [|eauto].
  unfold Blockchain.find_wallet_by_public_key, Blockchain.gets.
  unfold Blockchain.bind at 1. unfold Blockchain.bind at 1.
  rewrite Hreg, Hrs. unfold Blockchain.bind at 1.
  unfold Blockchain.isub_balance at 1, Blockchain.bind at 1, Blockchain.deref at 1.
  rewrite Hws. unfold Blockchain.store_balance, Blockchain.modify.
  destruct (Blockchain.wallets (Blockchain.self s)
            !! public_bytes (Transaction.recipient tx)) as [rr|] eqn:Hrr; [|eauto].
  destruct (same_wallets_live s t rr Hsame (Hrcp rr eq_refl)) as [wr Hwr].
  unfold Blockchain.iadd_balance, Blockchain.bind, Blockchain.deref.
  cbn [Blockchain.heap]. rewrite lookup_alter. case_decide as Hd.
  - subst rr. rewrite Hws. cbn [fmap option_fmap option_map]. eauto.
  - rewrite Hwr. eauto.
Qed.

Lemma update_balances_returns (s : Blockchain.store) (txs : list Transaction.t) :
  Forall (resolvable s) txs ->
  forall t, same_wallets s t ->
  exists t', Blockchain.update_balances txs t = (Return tt, t').
Proof.
  induction 1 as [|tx txs Hres _ IH]; intros t Hsame; simpl; [eexists; reflexivity|].
  destruct (update_balance_returns s t tx Hsame Hres) as [t1 E1].
  unfold Blockchain.bind. rewrite E1. apply IH.
  eapply rebalanced_same_wallets; [exact Hsame|].
  exact (update_balance_settles s t t1 tx Hsame E1).
Qed.

Lemma valid_fees_returns (s : Blockchain.store) (txs : list Transaction.t) :
  Forall (resolvable s) txs ->
  exists fees, Blockchain.valid_fees txs s = (Return fees, s).
Proof.
  induction 1 as [|tx txs [(rs & Hrs & [ws Hws]) _] _ [fees IH]]; simpl;
    [eexists; reflexivity|].
  unfold Blockchain.bind at 1. rewrite (is_valid_sender_known s tx rs ws Hrs Hws).
  unfold Transaction.is_valid. unfold Blockchain.bind at 1. rewrite IH.
  eexists. reflexivity.
Qed.

(** With a chain that has a block, a miner to draw and every transaction
    resolvable, [add_block] returns as soon as mining the new block does. *)
Lemma add_block_returns (fuel : nat) (now : float) (rnd : nat)
    (txs : list Transaction.t) (miners : list Blockchain.ref) (s : Blockchain.store)
    (last_block : Block.t) (miner : Blockchain.ref) (miner_wallet : Wallet.t)
    (h : string) (b' : Block.t) :
  last (Blockchain.chain (Blockchain.self s)) = Some last_block ->
  Blockchain.random_choice rnd miners = Return miner ->
  Blockchain.heap s !! miner = Some miner_wallet ->
  Forall (resolvable s) txs ->
  Block.mine_block fuel
    (Block.init (Z.of_nat (length (Blockchain.chain (Blockchain.self s)))) txs
       (Block.hash last_block) (Blockchain.difficulty (Blockchain.self s))
       (Some (Wallet.public_key miner_wallet)) now) = Some (h, b') ->
  exists s', Blockchain.add_block fuel now rnd txs miners s = (Return tt, s').
Proof.
  intros Hlast Hm Hmw Hres Hmine.
  destruct (valid_fees_returns s txs Hres) as [fees Hfees].
  unfold Blockchain.add_block. unfold Blockchain.bind at 1. rewrite Hlast.
  unfold Blockchain.bind at 1, Blockchain.lift at 1. rewrite Hm.
  unfold Blockchain.bind at 1. rewrite Hfees.
  unfold Blockchain.gets. unfold Blockchain.bind at 1. unfold Blockchain.bind at 1.
  unfold Blockchain.bind at 1, Blockchain.deref at 1. rewrite Hmw.
  unfold Blockchain.bind at 1, Blockchain.lift, Blockchain.run_mine_block.
  rewrite Hmine.
  unfold Blockchain.chain_append, Blockchain.modify.
  unfold Blockchain.bind at 1. unfold Blockchain.bind at 1.
  unfold Blockchain.bind at 1.
  unfold Blockchain.iadd_balance, Blockchain.bind at 1, Blockchain.deref.
  cbn [Blockchain.heap]. rewrite Hmw.
  unfold Blockchain.store_balance, Blockchain.modify.
  apply (update_balances_returns s txs Hres).
  match goal with
  | |- same_wallets s
         {| Blockchain.heap := alter (fun w => Wallet.set_balance w ?b) _ _;
            Blockchain.self := _ |} =>
      destruct (rebalanced_write s miner miner_wallet b Hmw) as [_ Hl]
  end.
  split; [reflexivity|]. intros r. specialize (Hl r). cbn [Blockchain.heap] in *.
  destruct (Blockchain.heap s !! r), (alter _ miner (Blockchain.heap s) !! r);
    try contradiction; try exact I. apply Hl.
Qed.

End add_block.

(** ** Floats *)

Lemma sum_singleton (compensated : bool) (x : float) :
  sum compensated [x] = (0 + x)%float.
Proof. destruct compensated; reflexivity. Qed.

Lemma SFmul_comm (x y : spec_float) :
  SFmul prec emax x y = SFmul prec emax y x.
Proof.
  destruct x as [sx|sx| |sx mx ex], y as [sy|sy| |sy my ey]; simpl;
    try rewrite (xorb_comm sx sy); try reflexivity.
  rewrite (Pos.mul_comm mx my), (Z.add_comm ex ey). reflexivity.
Qed.

Lemma float_mul_comm (x y : float) : (x * y = y * x)%float.
Proof.
  apply Prim2SF_inj. rewrite !mul_spec. apply SFmul_comm.
Qed.

(** ** The scenarios *)

Lemma float_reward_only : (0 + (50 + 0))%float = 50%float.
Proof. reflexivity. Qed.

Lemma fee_of_ten : round (0.005 * 10)%float 8 = 0.05%float.
Proof. vm_compute. reflexivity. Qed.

Lemma fee_of_thirty : round (0.005 * 30)%float 8 = 0.15%float.
Proof. vm_compute. reflexivity. Qed.

Section scenarios.
Context `{Library}.

Lemma register_wallet_return (r : Blockchain.ref) (w : Wallet.t) (s : Blockchain.store) :
  Blockchain.heap s !! r = Some w ->
  Blockchain.register_wallet r s
  = (Return tt,
     {| Blockchain.heap := Blockchain.heap s;
        Blockchain.self :=
          {| Blockchain.chain := Blockchain.chain (Blockchain.self s);
             Blockchain.difficulty := Blockchain.difficulty (Blockchain.self s);
             Blockchain.reward := Blockchain.reward (Blockchain.self s);
             Blockchain.wallets :=
               <[public_bytes (Wallet.public_key w) := r]>
                 (Blockchain.wallets (Blockchain.self s)) |} |}).
Proof.
  intros Hw. unfold Blockchain.register_wallet, Blockchain.bind, Blockchain.deref.
  rewrite Hw. reflexivity.
Qed.

Lemma random_choice_singleton {A : Type} (rnd : nat) (x : A) :
  Blockchain.random_choice rnd [x] = Return x.
Proof.
  unfold Blockchain.random_choice. simpl length. rewrite Nat.mod_1_r. reflexivity.
Qed.

Lemma wallet_eta (w w' : Wallet.t) (b : float) :
  same_wallet w w' -> Wallet.balance w' = b -> w' = Wallet.set_balance w b.
Proof.
  destruct w, w'. unfold same_wallet, Wallet.set_balance. simpl.
  intros (-> & -> & ->) ->. reflexivity.
Qed.

(** Where scenario A leaves the store. *)
Lemma scenario_A_result (sk1 sk2 : PrivateKey) (fuel : nat) (t0 t1 : float) (rnd : nat)
    (s : Blockchain.store) :
  public_bytes (derive_public_key sk1) <> public_bytes (derive_public_key sk2) ->
  scenario_A fuel t0 t1 rnd (scenario_start sk1 sk2) = (Return tt, s) ->
  Blockchain.heap s !! 0%nat = Some (Wallet.set_balance (Wallet.init "W1" sk1) 50%float) /\
  Blockchain.heap s !! 1%nat = Some (Wallet.init "W2" sk2) /\
  Blockchain.wallets (Blockchain.self s) !! public_bytes (derive_public_key sk1)
  = Some 0%nat /\
  Blockchain.wallets (Blockchain.self s) !! public_bytes (derive_public_key sk2)
  = Some 1%nat /\
  Blockchain.reward (Blockchain.self s) = 50%float /\
  length (Blockchain.chain (Blockchain.self s)) = 2%nat.
Proof.
  intros Hpem E. unfold scenario_A in E.
  mstep E; [|discriminate..]. destruct a.
  apply initialize_chain in E0 as (h & g & _ & Hs0).
  assert (H0 : Blockchain.heap s0 !! 0%nat = Some (Wallet.init "W1" sk1))
    by (rewrite Hs0; reflexivity).
  assert (H1 : Blockchain.heap s0 !! 1%nat = Some (Wallet.init "W2" sk2))
    by (rewrite Hs0; reflexivity).
  assert (Hr0 : Blockchain.reward (Blockchain.self s0) = 50%float)
    by (rewrite Hs0; reflexivity).
  assert (Hl0 : length (Blockchain.chain (Blockchain.self s0)) = 1%nat)
    by (rewrite Hs0; reflexivity).
  clear Hs0.
  unfold Blockchain.bind in E at 1.
  rewrite (register_wallet_return 0%nat _ _ H0) in E.
  unfold Blockchain.bind in E at 1.
  erewrite (register_wallet_return 1%nat (Wallet.init "W2" sk2)) in E by exact H1.
  cbn [Blockchain.heap Blockchain.self Blockchain.chain Blockchain.difficulty
       Blockchain.reward Blockchain.wallets Wallet.public_key Wallet.init] in E.
  pose proof (add_block_self _ _ _ _ _ _ _ E) as (Hreg & _ & Hrw & Hlen).
  pose proof (add_block_rebalanced _ _ _ _ _ _ _ E) as (miner & Hm & _ & Hbal).
  rewrite random_choice_singleton in Hm. injection Hm as <-.
  cbn [Blockchain.heap Blockchain.self Blockchain.chain Blockchain.difficulty
       Blockchain.reward Blockchain.wallets] in *.
  split; [|split; [|split; [|split; [|split]]]].
  - specialize (Hbal 0%nat). rewrite H0 in Hbal.
    destruct (Blockchain.heap s !! 0%nat) as [w|]; [|contradiction].
    destruct Hbal as [Hsw Hb]. f_equal. apply wallet_eta; [exact Hsw|].
    rewrite Hb. unfold balance_after, pay_miner. rewrite <- ?sum_total_fees.
    cbn [settle fold_left List.filter map sum Blockchain.reward Blockchain.self
         Wallet.balance Wallet.init].
    rewrite bool_decide_eq_true_2 by reflexivity. rewrite Hr0. reflexivity.
  - specialize (Hbal 1%nat). rewrite H1 in Hbal.
    destruct (Blockchain.heap s !! 1%nat) as [w|]; [|contradiction].
    destruct Hbal as [Hsw Hb]. f_equal.
    rewrite (wallet_eta _ _ _ Hsw Hb). unfold balance_after, pay_miner.
    cbn [settle fold_left]. rewrite bool_decide_eq_false_2 by discriminate.
    reflexivity.
  - rewrite Hreg. rewrite lookup_insert_ne by congruence. apply lookup_insert_eq.
  - rewrite Hreg. apply lookup_insert_eq.
  - rewrite Hrw. exact Hr0.
  - rewrite Hlen, Hl0. reflexivity.
Qed.

(** The pool takes a transfer that W1 can pay. *)
Lemma admit_constructed (pool : Pool.t) (w1 : Wallet.t) (pk2 : PublicKey)
    (a t : float) (k : Z) :
  (0 <? a)%float = true ->
  Wallet.public_key w1 <> pk2 ->
  (a + round (0.005 * a)%float 8 <=? Wallet.balance w1)%float = true ->
  fst (Pool.add_transaction pool (Transaction.init w1 pk2 a t k) w1)
  = {| Pool.transactions := Pool.transactions pool ++ [Transaction.init w1 pk2 a t k] |}.
Proof.
  intros Ha Hpk Hb. unfold Pool.add_transaction.
  cbn [Transaction.amount Transaction.fee Transaction.sender_public_key
       Transaction.recipient Transaction.init].
  rewrite Ha, Hb. rewrite bool_decide_eq_false_2 by exact Hpk. reflexivity.
Qed.

(** The second block of the scenarios: W2 mines transfers that W1 signed
    and sent to W2. *)
Lemma transfers_block (sk1 sk2 : PrivateKey) (b1 : float) (fuel : nat) (now : float)
    (rnd : nat) (txs : list Transaction.t) (s4 s : Blockchain.store) :
  ecdsa_accepts_signer ->
  dss_canonical ->
  public_bytes (derive_public_key sk1) <> public_bytes (derive_public_key sk2) ->
  Blockchain.heap s4 !! 0%nat = Some (Wallet.set_balance (Wallet.init "W1" sk1) b1) ->
  Blockchain.heap s4 !! 1%nat = Some (Wallet.init "W2" sk2) ->
  Blockchain.wallets (Blockchain.self s4) !! public_bytes (derive_public_key sk1)
  = Some 0%nat ->
  Blockchain.wallets (Blockchain.self s4) !! public_bytes (derive_public_key sk2)
  = Some 1%nat ->
  Blockchain.reward (Blockchain.self s4) = 50%float ->
  Forall (fun tx => exists a t k,
              tx = Transaction.init (Wallet.set_balance (Wallet.init "W1" sk1) b1)
                     (derive_public_key sk2) a t k) txs ->
  Blockchain.add_block fuel now rnd txs [1%nat] s4 = (Return tt, s) ->
  balance_of s 0%nat
  = Some (fold_left (fun b tx => (b - (Transaction.amount tx + Transaction.fee tx))%float)
            txs b1) /\
  balance_of s 1%nat
  = Some (fold_left (fun b tx => (b + Transaction.amount tx)%float) txs
            (0 + (50 + sum sum_compensated (map Transaction.fee txs)))%float).
Proof.
  intros Hacc Hcan Hpem H0 H1 Hr1 Hr2 Hrw Htxs E.
  apply add_block_rebalanced in E as (miner & Hm & _ & Hbal).
  rewrite random_choice_singleton in Hm. injection Hm as <-.
  cbn [Blockchain.heap] in Hbal.
  assert (Hconf : Forall (fun tx => confirms s4 tx = true) txs).
  { eapply Forall_impl; [exact Htxs|]. intros tx (a & t & k & ->). unfold confirms.
    cbn [Transaction.sender_public_key Transaction.init Wallet.public_key
         Wallet.set_balance Wallet.init].
    rewrite Hr1, H0. rewrite constructed_valid_for_signer; auto. reflexivity. }
  assert (Hfilter : List.filter (confirms s4) txs = txs).
  { clear -Hconf. induction Hconf as [|tx txs Hc _ IH]; [reflexivity|].
    simpl. rewrite Hc, IH. reflexivity. }
  assert (Hs0 : forall b,
             settle s4 0%nat b txs
             = fold_left (fun b tx => (b - (Transaction.amount tx + Transaction.fee tx))%float)
                 txs b).
  { clear -Htxs Hconf Hr1 Hr2. unfold settle.
    induction Htxs as [|tx txs (a & t & k & Htx) _ IH]; intros b; [reflexivity|].
    apply Forall_cons in Hconf as [Hc Hconf]. cbn [fold_left]. rewrite IH by exact Hconf.
    f_equal. unfold settle_one, registered_as. rewrite Hc. subst tx.
    cbn [Transaction.sender_public_key Transaction.recipient Transaction.init
         Wallet.public_key Wallet.set_balance Wallet.init].
    rewrite Hr1, Hr2.
    rewrite (bool_decide_eq_true_2 (Some 0%nat = Some 0%nat)) by reflexivity.
    rewrite (bool_decide_eq_false_2 (Some 1%nat = Some 0%nat)) by discriminate.
    reflexivity. }
  assert (Hs1 : forall b,
             settle s4 1%nat b txs
             = fold_left (fun b tx => (b + Transaction.amount tx)%float) txs b).
  { clear -Htxs Hconf Hr1 Hr2. unfold settle.
    induction Htxs as [|tx txs (a & t & k & Htx) _ IH]; intros b; [reflexivity|].
    apply Forall_cons in Hconf as [Hc Hconf]. cbn [fold_left]. rewrite IH by exact Hconf.
    f_equal. unfold settle_one, registered_as. rewrite Hc. subst tx.
    cbn [Transaction.sender_public_key Transaction.recipient Transaction.init
         Wallet.public_key Wallet.set_balance Wallet.init].
    rewrite Hr1, Hr2.
    rewrite (bool_decide_eq_false_2 (Some 0%nat = Some 1%nat)) by discriminate.
    rewrite (bool_decide_eq_true_2 (Some 1%nat = Some 1%nat)) by reflexivity.
    reflexivity. }
  unfold balance_of. split.
  - specialize (Hbal 0%nat). rewrite H0 in Hbal.
    destruct (Blockchain.heap s !! 0%nat) as [w|]; [|contradiction].
    destruct Hbal as [_ Hb]. cbn [fmap option_fmap option_map]. f_equal. rewrite Hb.
    unfold balance_after, pay_miner. rewrite bool_decide_eq_false_2 by discriminate.
    apply Hs0.
  - specialize (Hbal 1%nat). rewrite H1 in Hbal.
    destruct (Blockchain.heap s !! 1%nat) as [w|]; [|contradiction].
    destruct Hbal as [_ Hb]. cbn [fmap option_fmap option_map]. f_equal. rewrite Hb.
    unfold balance_after, pay_miner. rewrite <- ?sum_total_fees.
    rewrite bool_decide_eq_true_2 by reflexivity.
    rewrite Hs1, Hfilter, Hrw. reflexivity.
Qed.

(** The scenario up to the second call of [add_block]. *)
Lemma scenario_transfers_inv (sk1 sk2 : PrivateKey) (fuel : nat) (t0 t1 t3 : float)
    (rnd1 rnd2 : nat) (orders : list (float * float * Z)) (pool : Pool.t)
    (s : Blockchain.store) :
  public_bytes (derive_public_key sk1) <> public_bytes (derive_public_key sk2) ->
  scenario_transfers fuel t0 t1 t3 rnd1 rnd2 orders (scenario_start sk1 sk2)
  = (Return pool, s) ->
  exists s4,
    scenario_A fuel t0 t1 rnd1 (scenario_start sk1 sk2) = (Return tt, s4) /\
    pool = admit_all Pool.init
             (map (fun o : float * float * Z =>
                     Transaction.init (Wallet.set_balance (Wallet.init "W1" sk1) 50%float)
                       (derive_public_key sk2) (fst (fst o)) (snd (fst o)) (snd o))
                orders)
             (Wallet.set_balance (Wallet.init "W1" sk1) 50%float) /\
    Blockchain.add_block fuel t3 rnd2 (Pool.get_transactions pool) [1%nat] s4
    = (Return tt, s).
Proof.
  intros Hpem E. unfold scenario_transfers in E.
  mstep E; [|discriminate..]. destruct a.
  pose proof (scenario_A_result _ _ _ _ _ _ _ Hpem E0) as (H0 & H1 & _).
  unfold Blockchain.bind in E at 1. unfold Blockchain.deref in E at 1.
  rewrite H0 in E.
  unfold Blockchain.bind in E at 1. unfold Blockchain.deref in E at 1.
  rewrite H1 in E.
  cbn [Wallet.public_key Wallet.init] in E.
  mstep E; [|discriminate..]. destruct a.
  injection E as <- <-. eauto.
Qed.

(** C9: the constructor stores [round(amount * 0.005, 8)] as the fee, and
    that is [amount * 0.005] rounded to 8 fractional digits: the double
    nearest to [k / 10 ^ 8] for the integer [k] nearest to the product
    times [10 ^ 8]; for the amount 10 that is 0.05; and scenario B of the
    specification ends with the sender W1 at 39.95 and the recipient W2,
    who mined the block, at 60.05, the reward being 50. *)
Theorem fee_and_scenario_B :
  (forall (sender_wallet : Wallet.t) (recipient_public_key : PublicKey)
          (amount now : float) (k : Z),
     Transaction.fee (Transaction.init sender_wallet recipient_public_key amount now k)
     = round (amount * 0.005)%float 8 /\
     rounded_to (amount * 0.005)%float 8
       (Transaction.fee (Transaction.init sender_wallet recipient_public_key amount now k))) /\
  (forall (sender_wallet : Wallet.t) (recipient_public_key : PublicKey)
          (now : float) (k : Z),
     Transaction.fee (Transaction.init sender_wallet recipient_public_key 10%float now k)
     = 0.05%float) /\
  (forall (sk1 sk2 : PrivateKey) (fuel : nat) (t0 t1 t2 t3 : float) (rnd1 rnd2 : nat)
          (k : Z) (pool : Pool.t) (s : Blockchain.store),
     ecdsa_accepts_signer ->
     dss_canonical ->
     public_bytes (derive_public_key sk1) <> public_bytes (derive_public_key sk2) ->
     scenario_transfers fuel t0 t1 t3 rnd1 rnd2 [(10%float, t2, k)]
       (scenario_start sk1 sk2) = (Return pool, s) ->
     length (Pool.transactions pool) = 1%nat /\
     Blockchain.reward (Blockchain.self s) = 50%float /\
     balance_of s 0%nat = Some 39.95%float /\
     balance_of s 1%nat = Some 60.05%float).
Proof.
  split; [|split].
  - intros. cbn [Transaction.fee Transaction.init].
    rewrite (float_mul_comm 0.005 amount). split; [reflexivity|].
    apply round_rounded_to. lia.
  - intros. cbn [Transaction.fee Transaction.init]. apply fee_of_ten.
  - intros sk1 sk2 fuel t0 t1 t2 t3 rnd1 rnd2 k pool s Hacc Hcan Hpem E.
    apply scenario_transfers_inv in E as (s4 & EA & Hpool & E); [|exact Hpem].
    pose proof (scenario_A_result _ _ _ _ _ _ _ Hpem EA) as (H0 & H1 & Hr1 & Hr2 & Hrw & _).
    assert (Hpk : derive_public_key sk1 <> derive_public_key sk2) by congruence.
    cbn [map fst snd admit_all fold_left] in Hpool.
    rewrite admit_constructed in Hpool;
      [|reflexivity|exact Hpk|rewrite fee_of_ten; reflexivity].
    subst pool. cbn [Pool.get_transactions Pool.transactions Pool.init app] in *.
    pose proof (add_block_self _ _ _ _ _ _ _ E) as (_ & _ & Hrw' & _).
    eapply (transfers_block sk1 sk2 50%float) in E; try eassumption.
    2:{ constructor; [|constructor]. eauto. }
    destruct E as [E0 E1]. split; [reflexivity|]. split; [congruence|].
    rewrite E0, E1.
    cbn [fold_left map Transaction.amount Transaction.fee Transaction.init].
    rewrite sum_singleton, fee_of_ten. split; reflexivity.
Qed.

(** The loop under "Update balances" debits the sender of a confirmed
    transaction whatever the balance is. *)
Lemma update_balance_debits (s t : Blockchain.store) (tx : Transaction.t)
    (rs : Blockchain.ref) (ws : Wallet.t) :
  Blockchain.wallets (Blockchain.self s)
  !! public_bytes (Transaction.sender_public_key tx) = Some rs ->
  Blockchain.heap s !! rs = Some ws ->
  confirms s tx = true ->
  Blockchain.wallets (Blockchain.self s)
  !! public_bytes (Transaction.recipient tx) <> Some rs ->
  Blockchain.update_balance tx s = (Return tt, t) ->
  balance_of t rs
  = Some (Wallet.balance ws - (Transaction.amount tx + Transaction.fee tx))%float.
Proof.
  intros Hrs Hws Hc Hrcp E.
  apply (update_balance_settles s) in E as [_ Hbal]; [|apply same_wallets_refl].
  specialize (Hbal rs). rewrite Hws in Hbal. unfold balance_of.
  destruct (Blockchain.heap t !! rs) as [w|]; [|contradiction].
  destruct Hbal as [_ Hb]. cbn [fmap option_fmap option_map]. f_equal. rewrite Hb.
  unfold settle_one, registered_as. rewrite Hc, Hrs.
  rewrite (bool_decide_eq_true_2 (Some rs = Some rs)) by reflexivity.
  rewrite bool_decide_eq_false_2 by exact Hrcp. reflexivity.
Qed.

(** C10: [add_block] debits the sender of a confirmed transaction by
    [amount + fee] without looking at the balance; two transfers of 30
    from a wallet that holds 50 are both admitted to the pool, and mining
    them in one block leaves that wallet below zero. *)
Theorem overdraft :
  (forall (s t : Blockchain.store) (tx : Transaction.t) (rs : Blockchain.ref)
          (ws : Wallet.t),
     Blockchain.wallets (Blockchain.self s)
     !! public_bytes (Transaction.sender_public_key tx) = Some rs ->
     Blockchain.heap s !! rs = Some ws ->
     confirms s tx = true ->
     Blockchain.wallets (Blockchain.self s)
     !! public_bytes (Transaction.recipient tx) <> Some rs ->
     Blockchain.update_balance tx s = (Return tt, t) ->
     balance_of t rs
     = Some (Wallet.balance ws - (Transaction.amount tx + Transaction.fee tx))%float) /\
  (forall (sk1 sk2 : PrivateKey) (fuel : nat) (t0 t1 t2 t2' t3 : float)
          (rnd1 rnd2 : nat) (k k' : Z) (pool : Pool.t) (s : Blockchain.store),
     ecdsa_accepts_signer ->
     dss_canonical ->
     public_bytes (derive_public_key sk1) <> public_bytes (derive_public_key sk2) ->
     scenario_transfers fuel t0 t1 t3 rnd1 rnd2 [(30%float, t2, k); (30%float, t2', k')]
       (scenario_start sk1 sk2) = (Return pool, s) ->
     length (Pool.transactions pool) = 2%nat /\
     exists b, balance_of s 0%nat = Some b /\ (b <? 0)%float = true).
Proof.
  split; [exact update_balance_debits|].
  intros sk1 sk2 fuel t0 t1 t2 t2' t3 rnd1 rnd2 k k' pool s Hacc Hcan Hpem E.
  apply scenario_transfers_inv in E as (s4 & EA & Hpool & E); [|exact Hpem].
  pose proof (scenario_A_result _ _ _ _ _ _ _ Hpem EA) as (H0 & H1 & Hr1 & Hr2 & Hrw & _).
  assert (Hpk : derive_public_key sk1 <> derive_public_key sk2) by congruence.
  cbn [map fst snd admit_all fold_left] in Hpool.
  rewrite admit_constructed in Hpool;
    [|reflexivity|exact Hpk|rewrite fee_of_thirty; reflexivity].
  rewrite admit_constructed in Hpool;
    [|reflexivity|exact Hpk|rewrite fee_of_thirty; reflexivity].
  subst pool. cbn [Pool.get_transactions Pool.transactions Pool.init app] in *.
  eapply (transfers_block sk1 sk2 50%float) in E; try eassumption.
  2:{ constructor; [|constructor; [|constructor]]; eauto. }
  destruct E as [E0 _]. split; [reflexivity|].
  eexists. split; [exact E0|].
  cbn [fold_left Transaction.amount Transaction.fee Transaction.init].
  rewrite fee_of_thirty. reflexivity.
Qed.

End scenarios.

(** ** The instance [Exact] confuses no two values *)









(** ** The properties on concrete data *)

Lemma toy_accepts_signer : @ecdsa_accepts_signer Toy.lib.
Proof.
  intros sk data k. cbn. unfold Toy.verify, Toy.zeros.
  rewrite repeat_length, Nat.eqb_refl. reflexivity.
Qed.

Lemma toy_rejects_other_keys : @ecdsa_rejects_other_keys Toy.lib.
Proof.
  intros sk pk data k Hne. cbn in *. unfold Toy.verify, Toy.zeros.
  rewrite repeat_length.
  destruct (Nat.eqb_spec (sk + length data) (pk + length data)) as [E|_];
    [lia|discriminate].
Qed.

Lemma toy_dss_canonical : @dss_canonical Toy.lib.
Proof.
  intros sk data k. cbn. unfold Toy.zeros.
  rewrite repeat_length, Nat2Z.id. reflexivity.
Qed.

Lemma toy_distinct :
  @public_bytes Toy.lib (@derive_public_key Toy.lib 1%nat)
  <> @public_bytes Toy.lib (@derive_public_key Toy.lib 2%nat).
Proof. discriminate. Qed.

Section concrete.
#[local] Existing Instance Toy.lib.

Lemma reachable_chain_valid_witness :
  reachable Toy.s5 /\
  Blockchain.is_chain_valid (Blockchain.self Toy.s5) = Return true /\
  (forall (i : nat) current,
     Blockchain.chain (Blockchain.self Toy.s5) !! i = Some current ->
     Block.hash current = Some (Block.calculate_hash current)) /\
  (forall (i : nat) current previous,
     (0 < i)%nat ->
     Blockchain.chain (Blockchain.self Toy.s5) !! i = Some current ->
     Blockchain.chain (Blockchain.self Toy.s5) !! (i - 1)%nat = Some previous ->
     Block.previous_hash current = Block.hash previous).
Proof.
  assert (Hr : reachable Toy.s5).
  { apply (reach_add_block Toy.s4 5 4%float 0 [Toy.tx] [1%nat] (Return tt)).
    - apply (reach_add_block Toy.s3 5 2%float 0 [] [0%nat] (Return tt)).
      + apply (reach_register_wallet Toy.s2 1%nat (Return tt)).
        * apply (reach_register_wallet Toy.s1 0%nat (Return tt)).
          -- apply (reach_initialize (Blockchain.heap Toy.start) 2 50%float 5 1%float).
             vm_compute. reflexivity.
          -- vm_compute. reflexivity.
        * vm_compute. reflexivity.
      + vm_compute. reflexivity.
    - vm_compute. reflexivity. }
  split; [exact Hr|]. exact (reachable_chain_valid Toy.s5 Hr).
Defined.


Lemma add_block_unknown_sender_witness :
  Blockchain.chain (Blockchain.self Toy.s4) <> [] /\
  Blockchain.wallets (Blockchain.self Toy.s4)
  !! public_bytes (Transaction.sender_public_key Toy.tx_stranger) = None /\
  Blockchain.add_block 5 4%float 0 [Toy.tx_stranger] [1%nat] Toy.s4
  = (Raise AttributeError, Toy.s4).
Proof.
  assert (Hc : Blockchain.chain (Blockchain.self Toy.s4) <> [])
    by (vm_compute; discriminate).
  assert (Hn : Blockchain.wallets (Blockchain.self Toy.s4)
               !! public_bytes (Transaction.sender_public_key Toy.tx_stranger) = None)
    by (vm_compute; reflexivity).
  split; [exact Hc|]. split; [exact Hn|].
  apply (add_block_unknown_sender 5 4%float 0 [] [] Toy.tx_stranger [1%nat] Toy.s4 Hc).
  - discriminate.
  - constructor.
  - exact Hn.
Defined.

Lemma constructed_transaction_valid_witness :
  Transaction.is_valid (Transaction.init Toy.w1 2%nat 10%float 3%float 7) (Some Toy.w1)
  = Return true /\
  (Wallet.public_key Toy.w2 <> Wallet.public_key Toy.w1 ->
   Transaction.is_valid (Transaction.init Toy.w1 2%nat 10%float 3%float 7) (Some Toy.w2)
   = Return false).
Proof.
  apply (constructed_transaction_valid Toy.w1 Toy.w2 2%nat 10%float 3%float 7
           toy_accepts_signer toy_rejects_other_keys toy_dss_canonical).
  reflexivity.
Defined.

Lemma mine_block_seals_witness :
  built Toy.fresh_block /\
  Block.mine_block 5 Toy.fresh_block
  = Some ("00c0ffee",
          Block.set_hash (Block.set_nonce Toy.fresh_block 2) (Some "00c0ffee")) /\
  Block.nonce (Block.set_hash (Block.set_nonce Toy.fresh_block 2) (Some "00c0ffee")) = 2 /\
  (forall n, 0 <= n < 2 ->
     meets_difficulty
       (Block.set_hash (Block.set_nonce Toy.fresh_block 2) (Some "00c0ffee")) n = false).
Proof.
  assert (Hb : built Toy.fresh_block) by apply built_init.
  assert (Hm : Block.mine_block 5 Toy.fresh_block
               = Some ("00c0ffee",
                       Block.set_hash (Block.set_nonce Toy.fresh_block 2)
                         (Some "00c0ffee")))
    by (vm_compute; reflexivity).
  split; [exact Hb|]. split; [exact Hm|]. split; [reflexivity|].
  apply (mine_block_seals 5 _ _ _ Hb Hm).
Defined.

Lemma add_block_balances_witness :
  Blockchain.add_block 5 4%float 0 [Toy.tx] [1%nat] Toy.s4 = (Return tt, Toy.s5) /\
  (exists miner,
     Blockchain.random_choice 0 [1%nat] = Return miner /\
     forall l : Blockchain.ref,
       match Blockchain.heap Toy.s4 !! l, Blockchain.heap Toy.s5 !! l with
       | Some w, Some w' =>
           same_wallet w w' /\
           Wallet.balance w'
           = settle Toy.s4 l (pay_miner Toy.s4 miner l (Wallet.balance w) [Toy.tx]) [Toy.tx]
       | None, None => True
       | _, _ => False
       end) /\
  Blockchain.add_block 5 4%float 0 ToyMore.three_transfers [1%nat] Toy.s4
  = (Return tt, ToyMore.s5_three) /\
  (exists miner,
     Blockchain.random_choice 0 [1%nat] = Return miner /\
     forall l : Blockchain.ref,
       match Blockchain.heap Toy.s4 !! l, Blockchain.heap ToyMore.s5_three !! l with
       | Some w, Some w' =>
           same_wallet w w' /\
           Wallet.balance w'
           = settle Toy.s4 l
               (pay_miner Toy.s4 miner l (Wallet.balance w) ToyMore.three_transfers)
               ToyMore.three_transfers
       | None, None => True
       | _, _ => False
       end) /\
  map Transaction.fee ToyMore.three_transfers = [0.1; 0.2; 0.3]%float /\
  total_fees Toy.s4 ToyMore.three_transfers = 0.6000000000000001%float /\
  balance_of Toy.s4 0%nat = Some 50%float /\
  balance_of Toy.s4 1%nat = Some 0%float /\
  balance_of ToyMore.s5_three 0%nat = Some (-70.6)%float /\
  balance_of ToyMore.s5_three 1%nat = Some 170.6%float.
Proof.
  assert (E : Blockchain.add_block 5 4%float 0 [Toy.tx] [1%nat] Toy.s4
              = (Return tt, Toy.s5)) by (vm_compute; reflexivity).
  assert (E3 : Blockchain.add_block 5 4%float 0 ToyMore.three_transfers [1%nat] Toy.s4
               = (Return tt, ToyMore.s5_three)) by (vm_compute; reflexivity).
  split; [exact E|]. split; [exact (add_block_balances _ _ _ _ _ _ _ E)|].
  split; [exact E3|]. split; [exact (add_block_balances _ _ _ _ _ _ _ E3)|].
  repeat split; vm_compute; reflexivity.
Defined.

(** C8 as stated fails: the transaction is admitted and the call returns
    [None], not a boolean. *)
Lemma add_transaction_returns_none :
  Pool.add_transaction Pool.init Toy.tx Toy.w1
  = ({| Pool.transactions := [Toy.tx] |}, PyNone) /\
  snd (Pool.add_transaction Pool.init Toy.tx Toy.w1) <> PyBool true.
Proof.
  split; [vm_compute; reflexivity|]. vm_compute. discriminate.
Qed.

Lemma add_transaction_admits_witness :
  admissible Toy.tx Toy.w1 /\
  fst (Pool.add_transaction Pool.init Toy.tx Toy.w1)
  = {| Pool.transactions := Pool.transactions Pool.init ++ [Toy.tx] |}.
Proof.
  assert (Ha : admissible Toy.tx Toy.w1).
  { split; [vm_compute; reflexivity|]. split; [discriminate|vm_compute; reflexivity]. }
  split; [exact Ha|].
  apply (proj1 (proj1 (add_transaction_admits Pool.init Toy.tx Toy.w1)) Ha).
Defined.

Lemma fee_and_scenario_B_witness :
  scenario_transfers 5 1%float 2%float 4%float 0 0 [(10%float, 3%float, 7)] Toy.start
  = (Return {| Pool.transactions := [Toy.tx] |}, Toy.s5) /\
  balance_of Toy.s5 0%nat = Some 39.95%float /\
  balance_of Toy.s5 1%nat = Some 60.05%float /\
  (1e-06 * 0.005)%float = 5e-09%float /\
  Transaction.fee (Transaction.init Toy.w1 2%nat 1e-06%float 3%float 7) = 1e-08%float /\
  Transaction.fee (Transaction.init Toy.w1 2%nat (1 / 3)%float 3%float 7)
  = 0.00166667%float /\
  Transaction.fee (Transaction.init Toy.w1 2%nat 7%float 3%float 7) = 0.035%float.
Proof.
  assert (E : scenario_transfers 5 1%float 2%float 4%float 0 0
                [(10%float, 3%float, 7)] Toy.start
              = (Return {| Pool.transactions := [Toy.tx] |}, Toy.s5))
    by (vm_compute; reflexivity).
  split; [exact E|].
  destruct (proj2 (proj2 (@fee_and_scenario_B Toy.lib)) 1%nat 2%nat 5%nat 1%float 2%float
              3%float 4%float 0%nat 0%nat 7 _ _
              toy_accepts_signer toy_dss_canonical toy_distinct E) as (_ & _ & B0 & B1).
  split; [exact B0|]. split; [exact B1|]. split; [vm_compute; reflexivity|].
  repeat split;
    rewrite (proj1 (proj1 (@fee_and_scenario_B Toy.lib) Toy.w1 2%nat _ 3%float 7));
    vm_compute; reflexivity.
Defined.

Lemma overdraft_witness :
  scenario_transfers 5 1%float 2%float 4%float 0 0
    [(30%float, 3%float, 7); (30%float, 3.5%float, 8)] Toy.start
  = (Return {| Pool.transactions := [Toy.tx30; Toy.tx30'] |}, Toy.s5') /\
  exists b, balance_of Toy.s5' 0%nat = Some b /\ (b <? 0)%float = true.
Proof.
  assert (E : scenario_transfers 5 1%float 2%float 4%float 0 0
                [(30%float, 3%float, 7); (30%float, 3.5%float, 8)] Toy.start
              = (Return {| Pool.transactions := [Toy.tx30; Toy.tx30'] |}, Toy.s5'))
    by (vm_compute; reflexivity).
  split; [exact E|].
  apply (proj2 (@overdraft Toy.lib) 1%nat 2%nat 5%nat 1%float 2%float 3%float 3.5%float
           4%float 0%nat 0%nat 7 8 _ _
           toy_accepts_signer toy_dss_canonical toy_distinct E).
Defined.

End concrete.

Section concrete_exact.
#[local] Existing Instance Exact.lib.


End concrete_exact.

(** * Further properties of the code *)

Import More.

(** ** Mining *)

Section mining_more.
Context `{Library}.

Lemma set_nonce_same (b : Block.t) : Block.set_nonce b (Block.nonce b) = b.
Proof. destruct b; reflexivity. Qed.

(** X1: mining a block that is already mined returns at once, with the
    same hash and the block as it was: no call of [mine_block] moves a
    sealed block. *)
Theorem mine_block_again (fuel fuel' : nat) (b b' : Block.t) (h : string) :
  Block.mine_block fuel b = Some (h, b') ->
  Block.mine_block (S fuel') b' = Some (h, b').
Proof.
  intros Hm. apply mine_block_inv in Hm as (Hb' & Hh & Hmeet & _ & _).
  assert (Hp : String.prefix (str_mul "0" (Block.difficulty b'))
                 (Block.calculate_hash b') = true).
  { unfold meets_difficulty in Hmeet. rewrite Hb'. exact Hmeet. }
  simpl. rewrite Hp, <- Hh. do 2 f_equal. rewrite Hb'. reflexivity.
Qed.

Lemma prefix_empty (s : string) : String.prefix "" s = true.
Proof. destruct s; reflexivity. Qed.

(** X2: with a difficulty of zero or less the prefix is empty, so the
    first hash passes: [mine_block] returns in its first round and leaves
    the nonce where it was. *)
Theorem mine_block_no_difficulty (fuel : nat) (b : Block.t) :
  Block.difficulty b <= 0 ->
  Block.mine_block (S fuel) b
  = Some (Block.calculate_hash b, Block.set_hash b (Some (Block.calculate_hash b))).
Proof.
  intros Hd. simpl. unfold str_mul.
  replace (Z.to_nat (Block.difficulty b)) with 0%nat by lia.
  simpl. rewrite prefix_empty. reflexivity.
Qed.

(** X3: the loop of [mine_block] runs out of its [fuel] rounds exactly
    when none of the [fuel] nonces from the block's own nonce upwards
    passes the test; so it returns as soon as one of them does. *)
Theorem mine_block_exhausts (fuel : nat) (b : Block.t) :
  Block.mine_block fuel b = None <->
  (forall n, Block.nonce b <= n < Block.nonce b + Z.of_nat fuel ->
             meets_difficulty b n = false).
Proof.
  split.
  - revert b. induction fuel as [|fuel IH]; intros b Hm n Hn; [lia|].
    simpl in Hm.
    destruct (String.prefix (str_mul "0" (Block.difficulty b)) (Block.calculate_hash b))
      eqn:Hp; [discriminate|].
    destruct (Z.eq_dec n (Block.nonce b)) as [->|Hne].
    + unfold meets_difficulty. rewrite set_nonce_same. exact Hp.
    + specialize (IH _ Hm n). simpl in IH. apply IH. lia.
  - intros Hall. destruct (Block.mine_block fuel b) as [[h b']|] eqn:Hm; [|reflexivity].
    exfalso. revert b Hall h b' Hm.
    induction fuel as [|fuel IH]; intros b Hall h b' Hm; [discriminate|].
    simpl in Hm.
    destruct (String.prefix (str_mul "0" (Block.difficulty b)) (Block.calculate_hash b))
      eqn:Hp.
    + specialize (Hall (Block.nonce b) ltac:(lia)).
      unfold meets_difficulty in Hall. rewrite set_nonce_same in Hall. congruence.
    + eapply (IH _ _ h b' Hm). Unshelve.
      intros n Hn. simpl in Hn. specialize (Hall n ltac:(lia)). exact Hall.
Qed.

End mining_more.

(** ** [is_chain_valid], the pool and the wallet *)

Section checks_more.
Context `{Library}.


Lemma add_transaction_admits_bool (self : Pool.t) (tx : Transaction.t) (w : Wallet.t) :
  Pool.transactions (fst (Pool.add_transaction self tx w))
  = Pool.transactions self ++ (if admits tx w then [tx] else []).
Proof.
  unfold Pool.add_transaction, admits.
  destruct (0 <? Transaction.amount tx)%float; simpl; [|rewrite app_nil_r; reflexivity].
  destruct (negb _); simpl; [|rewrite app_nil_r; reflexivity].
  destruct (_ <=? _)%float; simpl; [reflexivity|rewrite app_nil_r; reflexivity].
Qed.

(** X5: offering transactions to the pool one after the other, against a
    wallet whose balance does not change in between, leaves the pool with
    its earlier content followed by those offered transactions that pass
    the test on their own, in the order offered.  Nothing is dropped,
    reordered or merged, and pending spending is not added up. *)
Theorem admit_all_filters (txs : list Transaction.t) (w : Wallet.t) :
  forall pool : Pool.t,
    Pool.get_transactions (admit_all pool txs w)
    = Pool.get_transactions pool ++ List.filter (fun tx => admits tx w) txs.
Proof.
  unfold admit_all, Pool.get_transactions.
  induction txs as [|tx txs IH]; intros pool; simpl; [rewrite app_nil_r; reflexivity|].
  rewrite IH, add_transaction_admits_bool.
  destruct (admits tx w); simpl; [rewrite <- app_assoc|rewrite app_nil_r]; reflexivity.
Qed.

(** X6: a wallet verifies what it signed: for any text, [verify_signature]
    answers true on the signature [sign_transaction] made with the same
    wallet and false for a wallet with another public key, ECDSA accepting
    a signature under the signer's key only. *)
Theorem sign_then_verify (w other : Wallet.t) (data : string) (k : Z) :
  ecdsa_accepts_signer ->
  ecdsa_rejects_other_keys ->
  dss_canonical ->
  keypair w ->
  Wallet.verify_signature w data (Wallet.sign_transaction w data k) = true /\
  (Wallet.public_key other <> Wallet.public_key w ->
   Wallet.verify_signature other data (Wallet.sign_transaction w data k) = false).
Proof.
  intros Hacc Hrej Hcan Hkey. rewrite sign_transaction_canonical by exact Hcan.
  unfold Wallet.verify_signature. split.
  - rewrite Hkey, Hacc. reflexivity.
  - intros Hne. destruct (ecdsa_verify (Wallet.public_key other) _ _) eqn:E; [reflexivity|].
    exfalso. revert E. apply Hrej. rewrite <- Hkey. exact Hne.
Qed.

End checks_more.

(** ** The registry *)

Section registry_more.
Context `{Library}.

(** X7: after [register_wallet(w)], [find_wallet_by_public_key] finds [w]
    under [w]'s public key; a key with another PEM text resolves as it did
    before, an unknown one to [None]; the chain, the wallets' balances,
    the difficulty and the reward are untouched. *)
Theorem register_then_find (r : Blockchain.ref) (w : Wallet.t) (s : Blockchain.store) :
  Blockchain.heap s !! r = Some w ->
  exists s',
    Blockchain.register_wallet r s = (Return tt, s') /\
    Blockchain.find_wallet_by_public_key (Wallet.public_key w) s' = (Return (Some r), s') /\
    (forall pk,
       public_bytes pk <> public_bytes (Wallet.public_key w) ->
       fst (Blockchain.find_wallet_by_public_key pk s')
       = fst (Blockchain.find_wallet_by_public_key pk s)) /\
    Blockchain.heap s' = Blockchain.heap s /\
    Blockchain.chain (Blockchain.self s') = Blockchain.chain (Blockchain.self s) /\
    Blockchain.difficulty (Blockchain.self s') = Blockchain.difficulty (Blockchain.self s) /\
    Blockchain.reward (Blockchain.self s') = Blockchain.reward (Blockchain.self s).
Proof.
  intros Hw. eexists. split; [apply (register_wallet_return r w s Hw)|].
  unfold Blockchain.find_wallet_by_public_key, Blockchain.gets. cbn.
  rewrite lookup_insert_eq. repeat split.
  intros pk Hpk. rewrite lookup_insert_ne by congruence. reflexivity.
Qed.

(** X8: the registry keeps one wallet per PEM text, the one registered
    last: registering a second wallet with the same public key replaces
    the first, and registering the same wallet twice is the same as
    registering it once. *)
Theorem register_wallet_overwrites (r1 r2 : Blockchain.ref) (w1 w2 : Wallet.t)
    (s : Blockchain.store) :
  Blockchain.heap s !! r1 = Some w1 ->
  Blockchain.heap s !! r2 = Some w2 ->
  public_bytes (Wallet.public_key w1) = public_bytes (Wallet.public_key w2) ->
  exists s1 s2,
    Blockchain.register_wallet r1 s = (Return tt, s1) /\
    Blockchain.register_wallet r2 s1 = (Return tt, s2) /\
    Blockchain.find_wallet_by_public_key (Wallet.public_key w1) s2 = (Return (Some r2), s2) /\
    Blockchain.register_wallet r2 s = (Return tt, s2) /\
    Blockchain.register_wallet r2 s2 = (Return tt, s2).
Proof.
  intros H1 H2 Hpem. eexists. eexists.
  split; [apply (register_wallet_return r1 w1 s H1)|].
  split; [apply (register_wallet_return r2 w2); exact H2|].
  cbn [Blockchain.self Blockchain.heap Blockchain.chain Blockchain.difficulty
       Blockchain.reward Blockchain.wallets].
  rewrite Hpem, insert_insert_eq. split; [|split].
  - unfold Blockchain.find_wallet_by_public_key, Blockchain.gets. cbn.
    rewrite Hpem, lookup_insert_eq. reflexivity.
  - apply (register_wallet_return r2 w2 s H2).
  - rewrite (register_wallet_return r2 w2) by exact H2.
    cbn [Blockchain.self Blockchain.heap Blockchain.chain Blockchain.difficulty
         Blockchain.reward Blockchain.wallets].
    rewrite insert_insert_eq. reflexivity.
Qed.

End registry_more.

(** ** Building blocks *)

Section blocks_more.
Context `{Library}.

Lemma mined_fields (fuel : nat) (b b' : Block.t) (h : string) :
  Block.mine_block fuel b = Some (h, b') ->
  Block.index b' = Block.index b /\
  Block.timestamp b' = Block.timestamp b /\
  Block.transactions b' = Block.transactions b /\
  Block.previous_hash b' = Block.previous_hash b /\
  Block.difficulty b' = Block.difficulty b /\
  Block.miner b' = Block.miner b /\
  sealed b'.
Proof.
  intros Hm. apply mine_block_inv in Hm as (Hb' & Hh & Hmeet & _ & _).
  assert (Hp : String.prefix (str_mul "0" (Block.difficulty b'))
                 (Block.calculate_hash b') = true).
  { unfold meets_difficulty in Hmeet. rewrite Hb'. exact Hmeet. }
  unfold sealed. rewrite Hp. rewrite Hb' at 1 2 3 4 5 6 7. cbn.
  rewrite Hh. repeat split.
Qed.

(** X9: when [initialize] returns it has appended one block to the chain,
    whatever the chain held: index 0, no transactions, previous hash ["0"],
    no miner, the ledger's difficulty, and a hash that is the block's own
    and passes that difficulty.  Wallets and registry are untouched. *)
Theorem initialize_appends_genesis (fuel : nat) (now : float) (s s' : Blockchain.store) :
  Blockchain.initialize fuel now s = (Return tt, s') ->
  exists g,
    Blockchain.chain (Blockchain.self s') = Blockchain.chain (Blockchain.self s) ++ [g] /\
    Block.index g = 0 /\
    Block.timestamp g = now /\
    Block.transactions g = [] /\
    Block.previous_hash g = Some "0" /\
    Block.miner g = None /\
    Block.difficulty g = Blockchain.difficulty (Blockchain.self s) /\
    sealed g /\
    Blockchain.heap s' = Blockchain.heap s /\
    Blockchain.wallets (Blockchain.self s') = Blockchain.wallets (Blockchain.self s) /\
    Blockchain.difficulty (Blockchain.self s') = Blockchain.difficulty (Blockchain.self s) /\
    Blockchain.reward (Blockchain.self s') = Blockchain.reward (Blockchain.self s).
Proof.
  intros E. apply initialize_chain in E as (h & g & Hm & ->).
  apply mined_fields in Hm as (H1 & H2 & H3 & H4 & H5 & H6 & H7).
  exists g. cbn in *. repeat split; try assumption; apply H7.
Qed.

(** X10: on a ledger that was never initialised [add_block] raises
    [IndexError] at [self.chain[-1]], whatever the miners and the
    transactions are, and leaves the store as it was. *)
Theorem add_block_before_initialize (fuel : nat) (now : float) (rnd : nat)
    (txs : list Transaction.t) (miners : list Blockchain.ref) (s : Blockchain.store) :
  Blockchain.chain (Blockchain.self s) = [] ->
  Blockchain.add_block fuel now rnd txs miners s = (Raise IndexError, s).
Proof.
  intros Hc. unfold Blockchain.add_block, Blockchain.bind. rewrite Hc. reflexivity.
Qed.

Lemma random_choice_member {A : Type} (rnd : nat) (seq : list A) (x : A) :
  Blockchain.random_choice rnd seq = Return x -> x ∈ seq.
Proof.
  unfold Blockchain.random_choice.
  destruct (seq !! (rnd mod length seq)%nat) as [y|] eqn:E; [|discriminate].
  intros [= <-]. eapply list_elem_of_lookup_2, E.
Qed.

(** X11: when [add_block] returns, the chain has grown by exactly one
    block: its index is the former length, its previous hash the hash of
    the former last block, its miner the public key of a wallet drawn from
    the candidates, its difficulty the ledger's, and it carries the whole
    list of candidate transactions, those that failed the signature check
    included.  Registry, difficulty and reward are untouched. *)
Theorem add_block_appends (fuel : nat) (now : float) (rnd : nat)
    (txs : list Transaction.t) (miners : list Blockchain.ref)
    (s s' : Blockchain.store) :
  Blockchain.add_block fuel now rnd txs miners s = (Return tt, s') ->
  exists last_block miner miner_wallet b,
    last (Blockchain.chain (Blockchain.self s)) = Some last_block /\
    miner ∈ miners /\
    Blockchain.heap s !! miner = Some miner_wallet /\
    Blockchain.chain (Blockchain.self s') = Blockchain.chain (Blockchain.self s) ++ [b] /\
    Block.index b = Z.of_nat (length (Blockchain.chain (Blockchain.self s))) /\
    Block.timestamp b = now /\
    Block.transactions b = txs /\
    Block.previous_hash b = Block.hash last_block /\
    Block.miner b = Some (Wallet.public_key miner_wallet) /\
    Block.difficulty b = Blockchain.difficulty (Blockchain.self s) /\
    sealed b /\
    Blockchain.wallets (Blockchain.self s') = Blockchain.wallets (Blockchain.self s) /\
    Blockchain.difficulty (Blockchain.self s') = Blockchain.difficulty (Blockchain.self s) /\
    Blockchain.reward (Blockchain.self s') = Blockchain.reward (Blockchain.self s).
Proof.
  intros E. apply add_block_return in E
    as (lb & miner & fees & mw & h & b & Hlast & Hm & _ & Hmw & Hmine & E).
  apply update_balances_self in E.
  apply mined_fields in Hmine as (H1 & H2 & H3 & H4 & H5 & H6 & H7).
  exists lb, miner, mw, b. rewrite E. cbn in *.
  repeat split; try assumption; try apply H7. eapply random_choice_member, Hm.
Qed.

End blocks_more.

(** ** What the ledger keeps *)

Section ledger_more.
Context `{Library}.

Lemma add_block_params (fuel : nat) (now : float) (rnd : nat)
    (txs : list Transaction.t) (miners : list Blockchain.ref)
    (s s' : Blockchain.store) (o : outcome unit) :
  Blockchain.add_block fuel now rnd txs miners s = (o, s') ->
  Blockchain.difficulty (Blockchain.self s') = Blockchain.difficulty (Blockchain.self s) /\
  Blockchain.reward (Blockchain.self s') = Blockchain.reward (Blockchain.self s) /\
  Blockchain.wallets (Blockchain.self s') = Blockchain.wallets (Blockchain.self s).
Proof.
  unfold Blockchain.add_block. intros E.
  unfold Blockchain.bind in E at 1. cbv beta in E.
  destruct (last (Blockchain.chain (Blockchain.self s))) as [last_block|] eqn:Hlast;
    [|mdone E; auto].
  cbv beta iota in E.
  mstep E; [|mdone E; injection E0 as _ <-; auto..].
  injection E0 as Hm <-.
  mstep E; apply valid_fees_pure in E0 as ->; [|mdone E; auto..].
  unfold Blockchain.gets in E.
  unfold Blockchain.bind in E at 1. cbv beta iota in E.
  unfold Blockchain.bind in E at 1. cbv beta iota in E.
  mstep E; apply deref_inv in E0 as [-> Hw]; [|mdone E; auto..].
  mstep E; [|mdone E; injection E0 as _ <-; auto..].
  unfold Blockchain.lift in E0. injection E0 as _ <-.
  unfold Blockchain.chain_append, Blockchain.modify in E.
  unfold Blockchain.bind in E at 1. cbv beta iota in E.
  unfold Blockchain.bind in E at 1. cbv beta iota in E.
  mstep E.
  - apply update_balances_self in E. apply iadd_balance_self in E0.
    rewrite E, E0. auto.
  - mdone E. apply iadd_balance_self in E0. rewrite E0. auto.
  - mdone E. apply iadd_balance_self in E0. rewrite E0. auto.
Qed.

Lemma well_shaped_snoc (d : Z) (chain : list Block.t) (b : Block.t) :
  well_shaped d chain ->
  Block.index b = Z.of_nat (length chain) -> Block.difficulty b = d -> sealed b ->
  well_shaped d (chain ++ [b]).
Proof.
  intros [Hall (g & Hg & Hgen)] Hi Hd Hs. split.
  - intros i x Hx. apply lookup_app_Some in Hx as [Hx|[Hlen Hx]]; [eauto|].
    apply list_lookup_singleton_Some in Hx as [Hz <-].
    replace i with (length chain) by lia. auto.
  - exists g. split; [|exact Hgen]. apply lookup_app_l_Some. exact Hg.
Qed.

Lemma reachable_well_shaped_aux (s : Blockchain.store) :
  reachable s ->
  well_shaped (Blockchain.difficulty (Blockchain.self s))
    (Blockchain.chain (Blockchain.self s)).
Proof.
  induction 1 as [heap d r fuel now s E
                 |s fuel now rnd txs miners o s' _ IH E
                 |s wallet o s' _ IH E
                 |s heap' _ IH].
  - apply initialize_chain in E as (h & g & Hm & ->). cbn.
    apply mined_fields in Hm as (H1 & H2 & H3 & H4 & H5 & H6 & H7). cbn in *. split.
    + intros [|i] b Hb; cbn in Hb; [|discriminate]. injection Hb as <-. auto.
    + exists g. auto.
  - pose proof (add_block_params _ _ _ _ _ _ _ _ E) as (Hd & _ & _). rewrite Hd.
    apply add_block_chain in E as [->|(lb & pk & h & b' & Hlast & Hm & ->)]; [exact IH|].
    apply mined_fields in Hm as (H1 & H2 & H3 & H4 & H5 & H6 & H7). cbn in *.
    apply well_shaped_snoc; assumption.
  - pose proof (register_wallet_chain _ _ _ _ E) as Hc. rewrite Hc.
    assert (Hd : Blockchain.difficulty (Blockchain.self s')
                 = Blockchain.difficulty (Blockchain.self s)).
    { unfold Blockchain.register_wallet in E. mstep E;
        apply deref_inv in E0 as [-> _]; mdone E; reflexivity. }
    rewrite Hd. exact IH.
  - exact IH.
Qed.

(** X12: in every ledger reached from [initialize] the chain is not
    empty, block [i] has index [i], states the ledger's difficulty and
    carries its own hash with that many leading zeros, and the first block
    has no transactions, no miner and the previous hash ["0"]. *)
Theorem reachable_well_shaped (s : Blockchain.store) :
  reachable s ->
  Blockchain.chain (Blockchain.self s) <> [] /\
  (forall (i : nat) b,
     Blockchain.chain (Blockchain.self s) !! i = Some b ->
     Block.index b = Z.of_nat i /\
     Block.difficulty b = Blockchain.difficulty (Blockchain.self s) /\
     Block.hash b = Some (Block.calculate_hash b) /\
     String.prefix (str_mul "0" (Blockchain.difficulty (Blockchain.self s)))
       (Block.calculate_hash b) = true) /\
  (exists g,
     Blockchain.chain (Blockchain.self s) !! 0%nat = Some g /\
     Block.transactions g = [] /\
     Block.previous_hash g = Some "0" /\
     Block.miner g = None).
Proof.
  intros Hr. destruct (reachable_well_shaped_aux s Hr) as [Hall (g & Hg & Hgen)].
  split; [|split].
  - intros E. rewrite E in Hg. discriminate.
  - intros i b Hb. destruct (Hall i b Hb) as (Hi & Hd & Hh & Hp).
    rewrite Hd in Hp. auto.
  - exists g. auto.
Qed.


Lemma zeros_not_single (d : Z) (h : string) :
  2 <= d -> String.prefix (str_mul "0" d) h = true -> h <> "0".
Proof.
  intros Hd Hp ->.
  assert (Hg : String.get 1 "0" = Some "0"%char).
  { eapply prefix_get; [exact Hp|]. apply get_str_repeat_zero. lia. }
  discriminate.
Qed.

(** X13: [initialize] does not look at the chain.  Called on a ledger
    that is already initialised, with a difficulty of 2 or more, it appends
    a second genesis block whose previous hash ["0"] is not the hash of the
    block before it, and [is_chain_valid] returns false from then on. *)
Theorem initialize_twice_invalid (fuel : nat) (now : float) (s s' : Blockchain.store) :
  reachable s ->
  2 <= Blockchain.difficulty (Blockchain.self s) ->
  Blockchain.initialize fuel now s = (Return tt, s') ->
  Blockchain.is_chain_valid (Blockchain.self s') = Return false.
Proof.
  intros Hr Hd E. pose proof (reachable_well_shaped_aux s Hr) as [Hall (g & Hg & _)].
  apply initialize_chain in E as (h & g' & Hm & ->).
  apply mined_fields in Hm as (_ & _ & _ & Hprev & _). cbn in Hprev.
  rewrite is_chain_valid_rounds. f_equal. cbn [Blockchain.chain Blockchain.self].
  set (chain := Blockchain.chain (Blockchain.self s)) in *.
  assert (Hlen : (0 < length chain)%nat) by (apply lookup_lt_Some in Hg; exact Hg).
  destruct (forallb _ _) eqn:Hf; [|reflexivity]. exfalso.
  rewrite forallb_forall in Hf.
  assert (Hround : round_ok (chain ++ [g']) (length chain) = true).
  { apply Hf, in_seq. rewrite length_app. simpl. lia. }
  apply round_ok_inv in Hround as (cur & prev & Hc & Hp & _ & Hl).
  rewrite lookup_app_r, Nat.sub_diag in Hc by lia. injection Hc as <-.
  rewrite lookup_app_l in Hp by lia.
  destruct (Hall _ _ Hp) as (_ & Hdp & Hhash & Hpre).
  rewrite Hprev, Hhash in Hl. injection Hl as Hl.
  rewrite Hdp in Hpre. exact (zeros_not_single _ _ Hd Hpre (eq_sym Hl)).
Qed.

End ledger_more.

(** ** [add_block] as a whole *)

Section add_block_more.
Context `{Library}.

Lemma registry_live_resolvable (s : Blockchain.store) (txs : list Transaction.t) :
  registry_live s ->
  Forall (fun tx => is_Some (Blockchain.wallets (Blockchain.self s)
                             !! public_bytes (Transaction.sender_public_key tx))) txs ->
  Forall (resolvable s) txs.
Proof.
  intros Hlive Hall. eapply Forall_impl; [exact Hall|].
  intros tx [r Hr]. split; [exists r; split; [exact Hr|eapply Hlive, Hr]|].
  intros r' Hr'. eapply Hlive, Hr'.
Qed.

(** X14: [add_block] is all or nothing.  In a store whose registry names
    wallets that exist, a call that does not return (an empty chain, no
    miner, an unregistered sender, a mining loop that does not end) leaves
    chain, registry and balances exactly as they were. *)
Theorem add_block_atomic (fuel : nat) (now : float) (rnd : nat)
    (txs : list Transaction.t) (miners : list Blockchain.ref)
    (s s' : Blockchain.store) (o : outcome unit) :
  registry_live s ->
  Blockchain.add_block fuel now rnd txs miners s = (o, s') ->
  o = Return tt \/ s' = s.
Proof.
  intros Hlive E. pose proof E as E'. unfold Blockchain.add_block in E.
  unfold Blockchain.bind in E at 1. cbv beta in E.
  destruct (last (Blockchain.chain (Blockchain.self s))) as [last_block|] eqn:Hlast;
    [|mdone E; auto].
  cbv beta iota in E.
  mstep E; [|mdone E; injection E0 as _ <-; auto..].
  injection E0 as Hm <-.
  mstep E; pose proof (valid_fees_pure _ _ _ _ E0) as ->; [|mdone E; auto..].
  unfold Blockchain.gets in E.
  unfold Blockchain.bind in E at 1. cbv beta iota in E.
  unfold Blockchain.bind in E at 1. cbv beta iota in E.
  mstep E; apply deref_inv in E1 as [-> Hw]; [|mdone E; auto..].
  mstep E; [|mdone E; injection E1 as _ <-; auto..].
  unfold Blockchain.lift, Blockchain.run_mine_block in E1.
  destruct (Block.mine_block fuel _) as [[h b']|] eqn:Hmine; [|discriminate].
  left. apply valid_fees_confirms in E0 as [_ Hres].
  destruct (add_block_returns fuel now rnd txs miners s last_block a a1 h b'
              Hlast Hm Hw (registry_live_resolvable s txs Hlive Hres) Hmine)
    as [s'' Hret].
  rewrite Hret in E'. injection E' as <- _. reflexivity.
Qed.

(** X15: [add_block] returns whenever the chain has a block, the list of
    miners is not empty and names wallets of the store, the registry names
    wallets of the store, every transaction's sender is registered, and
    mining the new block ends within the rounds granted.  A transaction
    whose signature does not verify does not make the call fail. *)
Theorem add_block_succeeds (fuel : nat) (now : float) (rnd : nat)
    (txs : list Transaction.t) (miners : list Blockchain.ref) (s : Blockchain.store)
    (last_block : Block.t) :
  last (Blockchain.chain (Blockchain.self s)) = Some last_block ->
  miners <> [] ->
  (forall m, m ∈ miners -> is_Some (Blockchain.heap s !! m)) ->
  registry_live s ->
  Forall (fun tx => is_Some (Blockchain.wallets (Blockchain.self s)
                             !! public_bytes (Transaction.sender_public_key tx))) txs ->
  (forall m miner_wallet,
     m ∈ miners -> Blockchain.heap s !! m = Some miner_wallet ->
     exists n,
       0 <= n /\ (Z.to_nat n < fuel)%nat /\
       meets_difficulty
         (Block.init (Z.of_nat (length (Blockchain.chain (Blockchain.self s)))) txs
            (Block.hash last_block) (Blockchain.difficulty (Blockchain.self s))
            (Some (Wallet.public_key miner_wallet)) now) n = true) ->
  exists s', Blockchain.add_block fuel now rnd txs miners s = (Return tt, s').
Proof.
  intros Hlast Hne Hminers Hlive Hsenders Hmining.
  destruct (random_choice_nonempty rnd miners Hne) as (m & Hm & Hin).
  destruct (Hminers m Hin) as [mw Hmw].
  destruct (Hmining m mw Hin Hmw) as (n & Hn0 & Hfuel & Hmeet).
  destruct (mine_block_returns fuel _ n (Hn0 : Block.nonce (Block.init _ _ _ _ _ _) <= n)
              Hmeet) as (h & b' & Hmine).
  { simpl. rewrite Z.sub_0_r. exact Hfuel. }
  exact (add_block_returns fuel now rnd txs miners s last_block m mw h b'
           Hlast Hm Hmw (registry_live_resolvable s txs Hlive Hsenders) Hmine).
Qed.

End add_block_more.

(** ** Transactions that do not verify, and transfers to oneself *)

Section settle_more.
Context `{Library}.

Lemma filter_confirms_twice (s : Blockchain.store) (txs : list Transaction.t) :
  List.filter (confirms s) (List.filter (confirms s) txs) = List.filter (confirms s) txs.
Proof.
  induction txs as [|tx txs IH]; [reflexivity|]. simpl.
  destruct (confirms s tx) eqn:Hc; [|exact IH]. simpl. rewrite Hc, IH. reflexivity.
Qed.

Lemma settle_filter (s : Blockchain.store) (l : Blockchain.ref) (txs : list Transaction.t) :
  forall b, settle s l b (List.filter (confirms s) txs) = settle s l b txs.
Proof.
  unfold settle. induction txs as [|tx txs IH]; intros b; [reflexivity|]. simpl.
  destruct (confirms s tx) eqn:Hc; simpl.
  - apply IH.
  - assert (settle_one s l b tx = b) as ->
      by (unfold settle_one; rewrite Hc; reflexivity).
    apply IH.
Qed.

(** X16: transactions that fail the signature check against their
    registered sender leave no trace in the balances: a call of
    [add_block] with them and a call without them, drawing the same miner
    from the same store, end with every wallet equal. *)
Theorem unconfirmed_leave_balances (fuel fuel' : nat) (now now' : float) (rnd : nat)
    (txs : list Transaction.t) (miners : list Blockchain.ref)
    (s s1 s2 : Blockchain.store) :
  Blockchain.add_block fuel now rnd txs miners s = (Return tt, s1) ->
  Blockchain.add_block fuel' now' rnd (List.filter (confirms s) txs) miners s
  = (Return tt, s2) ->
  Blockchain.heap s1 = Blockchain.heap s2.
Proof.
  intros E1 E2.
  apply add_block_rebalanced in E1 as (m1 & Hm1 & _ & R1).
  apply add_block_rebalanced in E2 as (m2 & Hm2 & _ & R2).
  assert (m2 = m1) as -> by congruence.
  apply map_eq. intros l. specialize (R1 l). specialize (R2 l).
  cbn [Blockchain.heap] in R1, R2.
  destruct (Blockchain.heap s !! l) as [w|].
  - destruct (Blockchain.heap s1 !! l) as [w1|]; [|contradiction].
    destruct (Blockchain.heap s2 !! l) as [w2|]; [|contradiction].
    destruct R1 as [Hs1 Hb1], R2 as [Hs2 Hb2]. f_equal.
    rewrite (wallet_eta _ _ _ Hs1 Hb1), (wallet_eta _ _ _ Hs2 Hb2). f_equal.
    unfold balance_after, pay_miner. rewrite <- ?sum_total_fees.
    rewrite settle_filter, filter_confirms_twice. reflexivity.
  - destruct (Blockchain.heap s1 !! l); [contradiction|].
    destruct (Blockchain.heap s2 !! l); [contradiction|reflexivity].
Qed.

(** X17: [add_block] does not repeat the pool's test on sender and
    recipient.  For a confirmed transaction whose recipient is registered
    as the very wallet of the sender, the loop debits [amount + fee] and
    then credits [amount] on the same object. *)
Theorem update_balance_self_transfer (s t : Blockchain.store) (tx : Transaction.t)
    (r : Blockchain.ref) (w : Wallet.t) :
  Blockchain.wallets (Blockchain.self s)
  !! public_bytes (Transaction.sender_public_key tx) = Some r ->
  Blockchain.wallets (Blockchain.self s)
  !! public_bytes (Transaction.recipient tx) = Some r ->
  Blockchain.heap s !! r = Some w ->
  confirms s tx = true ->
  Blockchain.update_balance tx s = (Return tt, t) ->
  balance_of t r
  = Some ((Wallet.balance w - (Transaction.amount tx + Transaction.fee tx))
          + Transaction.amount tx)%float.
Proof.
  intros Hs Hr Hw Hc E.
  apply (update_balance_settles s) in E as [_ Hbal]; [|apply same_wallets_refl].
  specialize (Hbal r). rewrite Hw in Hbal. unfold balance_of.
  destruct (Blockchain.heap t !! r) as [w'|]; [|contradiction].
  destruct Hbal as [_ Hb]. cbn [fmap option_fmap option_map]. f_equal. rewrite Hb.
  unfold settle_one, registered_as. rewrite Hc, Hs, Hr.
  rewrite !bool_decide_eq_true_2 by reflexivity. reflexivity.
Qed.

End settle_more.

(** ** The demo *)

Section demo.
Context `{Library}.

Lemma rebalanced_at (t t' : Blockchain.store) (f : Blockchain.ref -> float -> float)
    (l : Blockchain.ref) (w : Wallet.t) :
  rebalanced t t' f ->
  Blockchain.heap t !! l = Some w ->
  Blockchain.heap t' !! l = Some (Wallet.set_balance w (f l (Wallet.balance w))).
Proof.
  intros [_ Hl] Hw. specialize (Hl l). rewrite Hw in Hl.
  destruct (Blockchain.heap t' !! l) as [w'|]; [|contradiction].
  destruct Hl as [Hs Hb]. f_equal. exact (wallet_eta _ _ _ Hs Hb).
Qed.

Lemma balance_after_empty (s : Blockchain.store) (m l : Blockchain.ref) (b : float) :
  balance_after s m [] l b
  = if bool_decide (l = m) then (b + (Blockchain.reward (Blockchain.self s) + 0))%float
    else b.
Proof.
  unfold balance_after, pay_miner. rewrite <- sum_total_fees. reflexivity.
Qed.

Lemma balance_after_single (s : Blockchain.store) (m l rs rr : Blockchain.ref) (b : float)
    (tx : Transaction.t) :
  confirms s tx = true ->
  Blockchain.wallets (Blockchain.self s)
  !! public_bytes (Transaction.sender_public_key tx) = Some rs ->
  Blockchain.wallets (Blockchain.self s)
  !! public_bytes (Transaction.recipient tx) = Some rr ->
  balance_after s m [tx] l b
  = (let b1 := if bool_decide (l = m)
               then (b + (Blockchain.reward (Blockchain.self s)
                          + (0 + Transaction.fee tx)))%float
               else b in
     let b2 := if bool_decide (l = rs)
               then (b1 - (Transaction.amount tx + Transaction.fee tx))%float
               else b1 in
     if bool_decide (l = rr) then (b2 + Transaction.amount tx)%float else b2).
Proof.
  intros Hc Hs Hr. unfold balance_after, pay_miner, settle. rewrite <- ?sum_total_fees.
  cbn [fold_left List.filter]. rewrite Hc. cbn [map]. rewrite sum_singleton.
  unfold settle_one, registered_as. rewrite Hc, Hs, Hr. cbv zeta.
  rewrite (bool_decide_ext (Some rs = Some l) (l = rs)) by (split; congruence).
  rewrite (bool_decide_ext (Some rr = Some l) (l = rr)) by (split; congruence).
  reflexivity.
Qed.

Lemma register_all_reachable (wallets : list Blockchain.ref) :
  forall (s s' : Blockchain.store) (o : outcome unit),
    reachable s -> Demo.register_all wallets s = (o, s') -> reachable s'.
Proof.
  induction wallets as [|r wallets IH]; intros s s' o Hr E; simpl in E.
  - mdone E. exact Hr.
  - mstep E.
    + eapply IH; [|exact E]. eapply reach_register_wallet; eassumption.
    + mdone E. eapply reach_register_wallet; eassumption.
    + mdone E. eapply reach_register_wallet; eassumption.
Qed.

Lemma balances_three (s : Blockchain.store) (wa wb wc : Wallet.t) :
  Blockchain.heap s !! 0%nat = Some wa ->
  Blockchain.heap s !! 1%nat = Some wb ->
  Blockchain.heap s !! 2%nat = Some wc ->
  Demo.balances [0%nat; 1%nat; 2%nat] s
  = (Return [(Wallet.name wa, Wallet.balance wa); (Wallet.name wb, Wallet.balance wb);
             (Wallet.name wc, Wallet.balance wc)], s).
Proof.
  intros Ha Hb Hc. unfold Demo.balances, Blockchain.bind, Blockchain.deref, Blockchain.ret.
  rewrite Ha, Hb, Hc. reflexivity.
Qed.

(** What the wallets and the registry are once the three wallets are
    registered on the initialised ledger. *)
Lemma demo_registered (ska skb skc : PrivateKey) (fuel : nat) (t0 : float)
    (s0 s1 : Blockchain.store) :
  Blockchain.initialize fuel t0 (Demo.start ska skb skc) = (Return tt, s0) ->
  Demo.register_all [0%nat; 1%nat; 2%nat] s0 = (Return tt, s1) ->
  public_bytes (derive_public_key ska) <> public_bytes (derive_public_key skb) ->
  public_bytes (derive_public_key ska) <> public_bytes (derive_public_key skc) ->
  public_bytes (derive_public_key skb) <> public_bytes (derive_public_key skc) ->
  reachable s1 /\
  Blockchain.heap s1 !! 0%nat = Some (Wallet.init "Alice" ska) /\
  Blockchain.heap s1 !! 1%nat = Some (Wallet.init "Bob" skb) /\
  Blockchain.heap s1 !! 2%nat = Some (Wallet.init "Charlie" skc) /\
  Blockchain.wallets (Blockchain.self s1) !! public_bytes (derive_public_key ska)
  = Some 0%nat /\
  Blockchain.wallets (Blockchain.self s1) !! public_bytes (derive_public_key skb)
  = Some 1%nat /\
  Blockchain.wallets (Blockchain.self s1) !! public_bytes (derive_public_key skc)
  = Some 2%nat /\
  Blockchain.reward (Blockchain.self s1) = 50%float /\
  length (Blockchain.chain (Blockchain.self s1)) = 1%nat.
Proof.
  intros E0 E1 Hab Hac Hbc.
  assert (R0 : reachable s0) by (eapply reach_initialize; exact E0).
  pose proof (register_all_reachable _ _ _ _ R0 E1) as R1.
  apply initialize_chain in E0 as (h & g & _ & Hs0).
  assert (H0 : Blockchain.heap s0 !! 0%nat = Some (Wallet.init "Alice" ska))
    by (rewrite Hs0; reflexivity).
  assert (H1 : Blockchain.heap s0 !! 1%nat = Some (Wallet.init "Bob" skb))
    by (rewrite Hs0; reflexivity).
  assert (H2 : Blockchain.heap s0 !! 2%nat = Some (Wallet.init "Charlie" skc))
    by (rewrite Hs0; reflexivity).
  assert (Hr0 : Blockchain.reward (Blockchain.self s0) = 50%float)
    by (rewrite Hs0; reflexivity).
  assert (Hl0 : length (Blockchain.chain (Blockchain.self s0)) = 1%nat)
    by (rewrite Hs0; reflexivity).
  clear Hs0. simpl in E1.
  unfold Blockchain.bind in E1 at 1.
  rewrite (register_wallet_return 0%nat _ _ H0) in E1.
  unfold Blockchain.bind in E1 at 1.
  erewrite (register_wallet_return 1%nat (Wallet.init "Bob" skb)) in E1 by exact H1.
  unfold Blockchain.bind in E1 at 1.
  erewrite (register_wallet_return 2%nat (Wallet.init "Charlie" skc)) in E1 by exact H2.
  unfold Blockchain.ret in E1. injection E1 as <-.
  cbn [Blockchain.heap Blockchain.self Blockchain.chain Blockchain.difficulty
       Blockchain.reward Blockchain.wallets Wallet.public_key Wallet.init].
  split; [exact R1|]. repeat split; try assumption.
  - rewrite !lookup_insert_ne by congruence. apply lookup_insert_eq.
  - rewrite lookup_insert_ne by congruence. apply lookup_insert_eq.
  - apply lookup_insert_eq.
Qed.

(** X18: when [main()] runs to its end it prints Alice 50, Bob 0 and
    Charlie 0 after the first block, Alice 39.95, Bob 10 and Charlie 50.05
    after the second, and [Blockchain valid: True]; the chain then has
    three blocks.  This holds for any three keys with distinct PEM texts,
    ECDSA accepting a signature under the signer's key. *)
Theorem main_prints (ska skb skc : PrivateKey) (fuel : nat) (t0 t1 t2 t3 : float)
    (rnd1 rnd2 : nat) (k : Z) (after_first after_second : list (string * float))
    (valid : bool) (s : Blockchain.store) :
  ecdsa_accepts_signer ->
  dss_canonical ->
  public_bytes (derive_public_key ska) <> public_bytes (derive_public_key skb) ->
  public_bytes (derive_public_key ska) <> public_bytes (derive_public_key skc) ->
  public_bytes (derive_public_key skb) <> public_bytes (derive_public_key skc) ->
  Demo.main fuel t0 t1 t2 t3 rnd1 rnd2 k (Demo.start ska skb skc)
  = (Return (after_first, after_second, valid), s) ->
  after_first = [("Alice", 50%float); ("Bob", 0%float); ("Charlie", 0%float)] /\
  after_second = [("Alice", 39.95%float); ("Bob", 10%float); ("Charlie", 50.05%float)] /\
  valid = true /\
  length (Blockchain.chain (Blockchain.self s)) = 3%nat.
Proof.
  intros Hacc Hcan Hab Hac Hbc E. unfold Demo.main in E. cbv zeta in E.
  mstep E; [|discriminate..]. destruct a.
  mstep E; [|discriminate..]. destruct a.
  destruct (demo_registered _ _ _ _ _ _ _ E0 E1 Hab Hac Hbc)
    as (R1 & H0 & H1 & H2 & Ra & Rb & Rc & Hrw & Hlen).
  clear E0 E1.
  cbn [Pool.get_transactions Pool.init Pool.transactions Pool.clear_transactions] in E.
  mstep E; [|discriminate..]. destruct a.
  assert (R2 : reachable s2) by (eapply reach_add_block; eassumption).
  pose proof (add_block_self _ _ _ _ _ _ _ E0) as (Hreg2 & _ & Hrw2 & Hlen2).
  pose proof (add_block_rebalanced _ _ _ _ _ _ _ E0) as (m & Hm & Hreb).
  rewrite random_choice_singleton in Hm. injection Hm as <-.
  pose proof (rebalanced_at _ _ _ 0%nat _ Hreb H0) as A0.
  pose proof (rebalanced_at _ _ _ 1%nat _ Hreb H1) as A1.
  pose proof (rebalanced_at _ _ _ 2%nat _ Hreb H2) as A2.
  clear Hreb E0.
  cbn [Blockchain.heap] in A0, A1, A2.
  rewrite balance_after_empty, Hrw in A0, A1, A2.
  rewrite bool_decide_eq_true_2 in A0 by reflexivity.
  rewrite bool_decide_eq_false_2 in A1 by discriminate.
  rewrite bool_decide_eq_false_2 in A2 by discriminate.
  cbn [Wallet.balance Wallet.init] in A0. rewrite float_reward_only in A0.
  change (Wallet.set_balance (Wallet.init "Bob" skb) _)
    with (Wallet.init "Bob" skb) in A1.
  change (Wallet.set_balance (Wallet.init "Charlie" skc) _)
    with (Wallet.init "Charlie" skc) in A2.
  unfold Blockchain.bind in E at 1. rewrite (balances_three s2 _ _ _ A0 A1 A2) in E.
  unfold Blockchain.bind in E at 1. unfold Blockchain.deref in E at 1. rewrite A0 in E.
  unfold Blockchain.bind in E at 1. unfold Blockchain.deref in E at 1. rewrite A1 in E.
  cbn [Wallet.public_key Wallet.name Wallet.balance Wallet.init Wallet.set_balance
       Pool.clear_transactions] in E.
  change (Wallet.mk "Alice" ska (derive_public_key ska) 50%float)
    with (Wallet.set_balance (Wallet.init "Alice" ska) 50%float) in E.
  rewrite admit_constructed in E;
    [|reflexivity|cbn; congruence|rewrite fee_of_ten; reflexivity].
  cbn [Pool.get_transactions Pool.transactions app] in E.
  set (tx := Transaction.init (Wallet.set_balance (Wallet.init "Alice" ska) 50%float)
               (derive_public_key skb) 10%float t2 k) in E.
  mstep E; [|discriminate..]. destruct a.
  assert (R3 : reachable s3) by (eapply reach_add_block; eassumption).
  pose proof (add_block_self _ _ _ _ _ _ _ E0) as (_ & _ & _ & Hlen3).
  pose proof (add_block_rebalanced _ _ _ _ _ _ _ E0) as (m & Hm & Hreb).
  rewrite random_choice_singleton in Hm. injection Hm as <-.
  assert (Hconf : confirms s2 tx = true).
  { unfold confirms. subst tx.
    cbn [Transaction.sender_public_key Transaction.init Wallet.public_key
         Wallet.set_balance Wallet.init].
    rewrite Hreg2, Ra, A0. rewrite constructed_valid_for_signer; auto. reflexivity. }
  assert (Hs : Blockchain.wallets (Blockchain.self s2)
               !! public_bytes (Transaction.sender_public_key tx) = Some 0%nat)
    by (rewrite Hreg2; exact Ra).
  assert (Hr : Blockchain.wallets (Blockchain.self s2)
               !! public_bytes (Transaction.recipient tx) = Some 1%nat)
    by (rewrite Hreg2; exact Rb).
  pose proof (rebalanced_at _ _ _ 0%nat _ Hreb A0) as B0.
  pose proof (rebalanced_at _ _ _ 1%nat _ Hreb A1) as B1.
  pose proof (rebalanced_at _ _ _ 2%nat _ Hreb A2) as B2.
  clear Hreb E0. cbn [Blockchain.heap] in B0, B1, B2.
  rewrite (balance_after_single s2 2%nat _ 0%nat 1%nat _ tx Hconf Hs Hr), Hrw2, Hrw in B0.
  rewrite (balance_after_single s2 2%nat _ 0%nat 1%nat _ tx Hconf Hs Hr), Hrw2, Hrw in B1.
  rewrite (balance_after_single s2 2%nat _ 0%nat 1%nat _ tx Hconf Hs Hr), Hrw2, Hrw in B2.
  assert (Hfee : Transaction.fee tx = 0.05%float) by apply fee_of_ten.
  assert (Hamt : Transaction.amount tx = 10%float) by reflexivity.
  rewrite Hfee, Hamt in B0, B1, B2. clearbody tx.
  unfold Blockchain.bind in E at 1. rewrite (balances_three s3 _ _ _ B0 B1 B2) in E.
  unfold Blockchain.bind in E at 1.
  assert (Hv : Blockchain.is_chain_valid (Blockchain.self s3) = Return true).
  { apply is_chain_valid_loop_linked; [apply reachable_linked, R3|apply range_bounds]. }
  rewrite Hv in E. unfold Blockchain.ret in E. injection E as <- <- <- <-.
  repeat split. rewrite Hlen3, Hlen2, Hlen. reflexivity.
Qed.


End demo.

(** ** The further properties on concrete data *)

Lemma toy4_accepts_signer : @ecdsa_accepts_signer Toy4.lib.
Proof.
  intros sk data k. cbn. unfold Toy.verify, Toy.zeros.
  rewrite repeat_length, Nat.eqb_refl. reflexivity.
Qed.

Lemma toy4_dss_canonical : @dss_canonical Toy4.lib.
Proof.
  intros sk data k. cbn. unfold Toy.zeros.
  rewrite repeat_length, Nat2Z.id. reflexivity.
Qed.

Section concrete_more.
#[local] Existing Instance Toy.lib.

Lemma toy_s1_reachable : reachable Toy.s1.
Proof.
  apply (reach_initialize (Blockchain.heap Toy.start) 2 50%float 5 1%float).
  vm_compute. reflexivity.
Qed.

Lemma toy_s5_reachable : reachable Toy.s5.
Proof.
  apply (reach_add_block Toy.s4 5 4%float 0 [Toy.tx] [1%nat] (Return tt)).
  - apply (reach_add_block Toy.s3 5 2%float 0 [] [0%nat] (Return tt)).
    + apply (reach_register_wallet Toy.s2 1%nat (Return tt)).
      * apply (reach_register_wallet Toy.s1 0%nat (Return tt)).
        -- exact toy_s1_reachable.
        -- vm_compute. reflexivity.
      * vm_compute. reflexivity.
    + vm_compute. reflexivity.
  - vm_compute. reflexivity.
Qed.

Lemma toy_s4_registry_live : registry_live Toy.s4.
Proof.
  intros pem r Hl. apply elem_of_map_to_list in Hl.
  assert (Hr : r = 0%nat \/ r = 1%nat).
  { vm_compute in Hl. apply list_elem_of_In in Hl.
    destruct Hl as [Hl|[Hl|[]]]; injection Hl; auto. }
  destruct Hr as [->| ->]; vm_compute; eauto.
Qed.

Lemma mine_block_again_witness :
  Block.mine_block 5 Toy.fresh_block = Some ("00c0ffee", ToyMore.sealed_block) /\
  Block.mine_block 1 ToyMore.sealed_block = Some ("00c0ffee", ToyMore.sealed_block).
Proof.
  assert (Hm : Block.mine_block 5 Toy.fresh_block
               = Some ("00c0ffee", ToyMore.sealed_block)) by (vm_compute; reflexivity).
  split; [exact Hm|]. exact (mine_block_again 5 0 _ _ _ Hm).
Defined.

Lemma mine_block_no_difficulty_witness :
  Block.difficulty ToyMore.easy_block <= 0 /\
  Block.mine_block 1 ToyMore.easy_block
  = Some (Block.calculate_hash ToyMore.easy_block,
          Block.set_hash ToyMore.easy_block
            (Some (Block.calculate_hash ToyMore.easy_block))).
Proof.
  assert (Hd : Block.difficulty ToyMore.easy_block <= 0) by (vm_compute; discriminate).
  split; [exact Hd|]. exact (mine_block_no_difficulty 0 _ Hd).
Defined.

Lemma mine_block_exhausts_witness :
  Block.mine_block 2 Toy.fresh_block = None /\
  (forall n, Block.nonce Toy.fresh_block <= n < Block.nonce Toy.fresh_block + Z.of_nat 2 ->
             meets_difficulty Toy.fresh_block n = false).
Proof.
  assert (Hm : Block.mine_block 2 Toy.fresh_block = None) by (vm_compute; reflexivity).
  split; [exact Hm|]. exact (proj1 (mine_block_exhausts 2 Toy.fresh_block) Hm).
Defined.


Lemma sign_then_verify_witness :
  Wallet.verify_signature Toy.w1 "pay" (Wallet.sign_transaction Toy.w1 "pay" 7) = true /\
  (Wallet.public_key Toy.w2 <> Wallet.public_key Toy.w1 ->
   Wallet.verify_signature Toy.w2 "pay" (Wallet.sign_transaction Toy.w1 "pay" 7) = false).
Proof.
  apply (sign_then_verify Toy.w1 Toy.w2 "pay" 7
           toy_accepts_signer toy_rejects_other_keys toy_dss_canonical).
  reflexivity.
Defined.

Lemma register_then_find_witness :
  Blockchain.heap Toy.s1 !! 0%nat = Some (Wallet.init "W1" 1%nat) /\
  exists s',
    Blockchain.register_wallet 0%nat Toy.s1 = (Return tt, s') /\
    Blockchain.find_wallet_by_public_key 1%nat s' = (Return (Some 0%nat), s').
Proof.
  assert (Hw : Blockchain.heap Toy.s1 !! 0%nat = Some (Wallet.init "W1" 1%nat))
    by (vm_compute; reflexivity).
  split; [exact Hw|].
  destruct (register_then_find 0%nat _ Toy.s1 Hw) as (s' & E & F & _).
  exists s'. split; [exact E|exact F].
Defined.

Lemma register_wallet_overwrites_witness :
  Blockchain.heap ToyMore.twins !! 0%nat = Some (Wallet.init "W1" 1%nat) /\
  Blockchain.heap ToyMore.twins !! 1%nat = Some (Wallet.init "W1 again" 1%nat) /\
  exists s1 s2,
    Blockchain.register_wallet 0%nat ToyMore.twins = (Return tt, s1) /\
    Blockchain.register_wallet 1%nat s1 = (Return tt, s2) /\
    Blockchain.find_wallet_by_public_key 1%nat s2 = (Return (Some 1%nat), s2).
Proof.
  assert (H0 : Blockchain.heap ToyMore.twins !! 0%nat = Some (Wallet.init "W1" 1%nat))
    by (vm_compute; reflexivity).
  assert (H1 : Blockchain.heap ToyMore.twins !! 1%nat
               = Some (Wallet.init "W1 again" 1%nat)) by (vm_compute; reflexivity).
  split; [exact H0|]. split; [exact H1|].
  destruct (register_wallet_overwrites 0%nat 1%nat _ _ ToyMore.twins H0 H1 eq_refl)
    as (s1 & s2 & E1 & E2 & F & _).
  exists s1, s2. auto.
Defined.

Lemma initialize_appends_genesis_witness :
  Blockchain.initialize 5 1%float Toy.start = (Return tt, Toy.s1) /\
  exists g,
    Blockchain.chain (Blockchain.self Toy.s1)
    = Blockchain.chain (Blockchain.self Toy.start) ++ [g] /\
    Block.index g = 0 /\ Block.previous_hash g = Some "0" /\ Block.miner g = None.
Proof.
  assert (E : Blockchain.initialize 5 1%float Toy.start = (Return tt, Toy.s1))
    by (vm_compute; reflexivity).
  split; [exact E|].
  destruct (initialize_appends_genesis 5 1%float Toy.start Toy.s1 E)
    as (g & Hc & Hi & _ & _ & Hp & Hm & _).
  exists g. auto.
Defined.

Lemma add_block_before_initialize_witness :
  Blockchain.chain (Blockchain.self Toy.start) = [] /\
  Blockchain.add_block 5 2%float 0 [Toy.tx] [0%nat] Toy.start
  = (Raise IndexError, Toy.start).
Proof.
  split; [reflexivity|].
  exact (add_block_before_initialize 5 2%float 0 [Toy.tx] [0%nat] Toy.start eq_refl).
Defined.

Lemma add_block_appends_witness :
  Blockchain.add_block 5 4%float 0 [ToyMore.tx_forged; Toy.tx] [1%nat] Toy.s4
  = (Return tt,
     snd (Blockchain.add_block 5 4%float 0 [ToyMore.tx_forged; Toy.tx] [1%nat] Toy.s4)) /\
  exists b,
    Blockchain.chain
      (Blockchain.self
         (snd (Blockchain.add_block 5 4%float 0 [ToyMore.tx_forged; Toy.tx] [1%nat] Toy.s4)))
    = Blockchain.chain (Blockchain.self Toy.s4) ++ [b] /\
    Block.index b = 2 /\
    Block.transactions b = [ToyMore.tx_forged; Toy.tx].
Proof.
  assert (E : Blockchain.add_block 5 4%float 0 [ToyMore.tx_forged; Toy.tx] [1%nat] Toy.s4
              = (Return tt,
                 snd (Blockchain.add_block 5 4%float 0 [ToyMore.tx_forged; Toy.tx]
                        [1%nat] Toy.s4))) by (vm_compute; reflexivity).
  split; [exact E|].
  destruct (add_block_appends _ _ _ _ _ _ _ E)
    as (lb & m & mw & b & _ & _ & _ & Hc & Hi & _ & Ht & _).
  exists b. split; [exact Hc|]. split; [exact Hi|exact Ht].
Defined.

Lemma reachable_well_shaped_witness :
  reachable Toy.s5 /\
  Blockchain.chain (Blockchain.self Toy.s5) <> [] /\
  (forall (i : nat) b,
     Blockchain.chain (Blockchain.self Toy.s5) !! i = Some b ->
     Block.index b = Z.of_nat i).
Proof.
  split; [exact toy_s5_reachable|].
  destruct (reachable_well_shaped Toy.s5 toy_s5_reachable) as (Hne & Hall & _).
  split; [exact Hne|]. intros i b Hb. exact (proj1 (Hall i b Hb)).
Defined.

Lemma initialize_twice_invalid_witness :
  reachable Toy.s1 /\
  2 <= Blockchain.difficulty (Blockchain.self Toy.s1) /\
  Blockchain.initialize 5 9%float Toy.s1
  = (Return tt, snd (Blockchain.initialize 5 9%float Toy.s1)) /\
  Blockchain.is_chain_valid (Blockchain.self (snd (Blockchain.initialize 5 9%float Toy.s1)))
  = Return false.
Proof.
  assert (Hd : 2 <= Blockchain.difficulty (Blockchain.self Toy.s1))
    by (vm_compute; discriminate).
  assert (E : Blockchain.initialize 5 9%float Toy.s1
              = (Return tt, snd (Blockchain.initialize 5 9%float Toy.s1)))
    by (vm_compute; reflexivity).
  split; [exact toy_s1_reachable|]. split; [exact Hd|]. split; [exact E|].
  exact (initialize_twice_invalid 5 9%float Toy.s1 _ toy_s1_reachable Hd E).
Defined.

Lemma add_block_atomic_witness :
  registry_live Toy.s4 /\
  Blockchain.add_block 5 4%float 0 [Toy.tx_stranger] [1%nat] Toy.s4
  = (Raise AttributeError, Toy.s4) /\
  (Raise AttributeError = Return tt \/ Toy.s4 = Toy.s4).
Proof.
  assert (E : Blockchain.add_block 5 4%float 0 [Toy.tx_stranger] [1%nat] Toy.s4
              = (Raise AttributeError, Toy.s4)) by (vm_compute; reflexivity).
  split; [exact toy_s4_registry_live|]. split; [exact E|].
  exact (add_block_atomic _ _ _ _ _ _ _ _ toy_s4_registry_live E).
Defined.

Lemma add_block_succeeds_witness :
  exists s', Blockchain.add_block 5 4%float 0 [ToyMore.tx_forged] [1%nat] Toy.s4
             = (Return tt, s').
Proof.
  apply (add_block_succeeds 5 4%float 0 [ToyMore.tx_forged] [1%nat] Toy.s4 Toy.block1).
  - vm_compute. reflexivity.
  - discriminate.
  - intros m Hm. apply list_elem_of_singleton in Hm as ->. vm_compute. eauto.
  - exact toy_s4_registry_live.
  - constructor; [|constructor]. vm_compute. eauto.
  - intros m mw Hm Hw. apply list_elem_of_singleton in Hm as ->.
    vm_compute in Hw. injection Hw as <-.
    exists 2. split; [lia|]. split; [lia|]. vm_compute. reflexivity.
Defined.

Lemma unconfirmed_leave_balances_witness :
  List.filter (confirms Toy.s4) [ToyMore.tx_forged; Toy.tx] = [Toy.tx] /\
  Blockchain.heap
    (snd (Blockchain.add_block 5 4%float 0 [ToyMore.tx_forged; Toy.tx] [1%nat] Toy.s4))
  = Blockchain.heap Toy.s5.
Proof.
  assert (Hf : List.filter (confirms Toy.s4) [ToyMore.tx_forged; Toy.tx] = [Toy.tx])
    by (vm_compute; reflexivity).
  split; [exact Hf|].
  apply (unconfirmed_leave_balances 5 5 4%float 4%float 0
           [ToyMore.tx_forged; Toy.tx] [1%nat] Toy.s4).
  - vm_compute. reflexivity.
  - rewrite Hf. vm_compute. reflexivity.
Defined.

Lemma update_balance_self_transfer_witness :
  Blockchain.update_balance ToyMore.tx_self Toy.s4
  = (Return tt, snd (Blockchain.update_balance ToyMore.tx_self Toy.s4)) /\
  balance_of (snd (Blockchain.update_balance ToyMore.tx_self Toy.s4)) 0%nat
  = Some ((50 - (10 + 0.05)) + 10)%float.
Proof.
  assert (E : Blockchain.update_balance ToyMore.tx_self Toy.s4
              = (Return tt, snd (Blockchain.update_balance ToyMore.tx_self Toy.s4)))
    by (vm_compute; reflexivity).
  split; [exact E|].
  assert (Hs : Blockchain.wallets (Blockchain.self Toy.s4)
               !! public_bytes (Transaction.sender_public_key ToyMore.tx_self)
               = Some 0%nat) by (vm_compute; reflexivity).
  assert (Hr : Blockchain.wallets (Blockchain.self Toy.s4)
               !! public_bytes (Transaction.recipient ToyMore.tx_self)
               = Some 0%nat) by (vm_compute; reflexivity).
  assert (Hw : Blockchain.heap Toy.s4 !! 0%nat
               = Some (Wallet.set_balance Toy.w1 50%float)) by (vm_compute; reflexivity).
  assert (Hc : confirms Toy.s4 ToyMore.tx_self = true) by (vm_compute; reflexivity).
  rewrite (update_balance_self_transfer Toy.s4 _ ToyMore.tx_self 0%nat _ Hs Hr Hw Hc E).
  vm_compute. reflexivity.
Defined.

End concrete_more.

Lemma main_prints_witness :
  fst (@Demo.main Toy4.lib 5 1%float 2%float 3%float 4%float 0 0 7
         (@Demo.start Toy4.lib 1%nat 2%nat 3%nat))
  = Return ([("Alice", 50%float); ("Bob", 0%float); ("Charlie", 0%float)],
            [("Alice", 39.95%float); ("Bob", 10%float); ("Charlie", 50.05%float)],
            true).
Proof.
  destruct (@Demo.main Toy4.lib 5 1%float 2%float 3%float 4%float 0 0 7
              (@Demo.start Toy4.lib 1%nat 2%nat 3%nat)) as [[[[b1 b2] v]|e|] s] eqn:E;
    [|vm_compute in E; discriminate..].
  destruct (@main_prints Toy4.lib 1%nat 2%nat 3%nat 5%nat 1%float 2%float 3%float 4%float
              0%nat 0%nat 7 b1 b2 v s toy4_accepts_signer toy4_dss_canonical
              ltac:(discriminate) ltac:(discriminate) ltac:(discriminate) E)
    as (-> & -> & -> & _).
  reflexivity.
Defined.
